(** * Linear regression by batch gradient descent ([grad_desc.c])

    A shallow embedding of the program and the properties its
    specification states about it.

    Numbers.  The C type [double] is read as the real numbers [R], which is
    also how the specification types coefficients and observations ("both
    real numbers").  Rounding, overflow to infinity and NaN are therefore not
    part of the main embedding.  A division whose divisor is zero is reported
    as the error [DivisionByZero] instead of being given a value.  The C type
    [int] is read as [Z]; every loop counter below stays between [0] and its
    bound, so no wrap-around can occur.

    Where a property depends on rounding, the module [Binary64] gives the
    function concerned over IEEE 754 binary64 numbers, with the operations
    of the standard library's [SpecFloat] (round to nearest, ties to even).

    Memory.  A [double*] buffer is a list of reals that is read and written
    by index; an access outside the buffer is the error [OutOfBounds].
    Allocation is assumed to succeed and [free] has no observable effect.

    Environment.  [rand()], [clock()] and [printf] act on an explicit
    [world] that is passed through the functions that use them. *)

From Equations Require Import Equations.
From Stdlib Require Import Reals Lra Lia ZArith List SpecFloat.
Import ListNotations.

Open Scope R_scope.

(** ** Errors and the error monad *)

Inductive error : Type :=
| OutOfBounds
| DivisionByZero.

Inductive result (A : Type) : Type :=
| Ok (x : A)
| Err (e : error).

Arguments Ok {A} x.
Arguments Err {A} e.

Definition bind {A B : Type} (m : result A) (k : A -> result B) : result B :=
  match m with
  | Ok x => k x
  | Err e => Err e
  end.

Notation "x <- m ;; k" := (bind m (fun x => k))
  (at level 61, m at next level, right associativity).
Notation "' p <- m ;; k" := (bind m (fun p => k))
  (at level 61, p pattern, m at next level, right associativity).

(** ** Numbers *)

Definition double : Type := R.

(** Conversion of an [int] to [double] (exact for every 32-bit value). *)
Definition of_int (z : Z) : double := IZR z.

(** The operator [/] on doubles. *)
Definition ddiv (x y : double) : result double :=
  if Req_dec_T y 0 then Err DivisionByZero else Ok (x / y).

(** ** Buffers *)

Definition array : Type := list double.

(** [*(p + i)] as an rvalue. *)
Definition load (p : array) (i : Z) : result double :=
  if (i <? 0)%Z then Err OutOfBounds
  else match nth_error p (Z.to_nat i) with
       | Some v => Ok v
       | None => Err OutOfBounds
       end.

Fixpoint update (p : array) (k : nat) (v : double) : array :=
  match p, k with
  | [], _ => []
  | _ :: q, O => v :: q
  | u :: q, S j => u :: update q j v
  end.

(** [*(p + i) = v]. *)
Definition store (p : array) (i : Z) (v : double) : result array :=
  if (i <? 0)%Z then Err OutOfBounds
  else if (Z.to_nat i <? length p)%nat then Ok (update p (Z.to_nat i) v)
  else Err OutOfBounds.

(** [malloc(n * sizeof(double))]: a buffer of [n] cells.  Their initial
    content is indeterminate in C; the program writes each cell before it
    reads it, and [0] stands for the indeterminate value here. *)
Definition malloc_doubles (n : Z) : array := repeat 0 (Z.to_nat n).

(** The [double**] returned by [get_random_data]: [*(data + 0)] is the
    buffer of the feature [x], [*(data + 1)] the buffer of the target [y]. *)
Record dataset : Type := mk_dataset {
  data_0 : array;
  data_1 : array
}.

(** ** Loops

    [for (i = lo; i < n; i++) body], for a body that changes neither [i]
    nor [n].  The test is made before every iteration; the value the counter
    has when the test fails is returned with the final state (the loop of
    [main] reads it afterwards). *)

Equations? for_loop {St : Type} (i n : Z) (body : Z -> St -> result St) (s : St)
  : result (Z * St) by wf (Z.to_nat (n - i)) lt :=
  for_loop i n body s with Z_lt_dec i n := {
    | left _ with body i s := {
        | Ok s' => for_loop (i + 1) n body s'
        | Err e => Err e };
    | right _ => Ok (i, s) }.
Proof. lia. Qed.

(** ** The program *)

Definition LEARNING_RATE : double := 1 / 1000.
Definition STEPS : Z := 100000.
Definition X_UB : Z := 20.
Definition NOISE_UB : Z := 1.
Definition DATA_SIZE : Z := 2000.
Definition TRUE_A : Z := 4.
Definition TRUE_B : Z := 2.

(** [struct ab]. *)
Record ab : Type := mk_ab {
  a : double;
  b : double
}.

(** What [printf] writes, one constructor per call site of [main]. *)
Inductive output : Type :=
| OutComputing
| OutDatasetSize (n : Z)
| OutFinished (i : Z) (loss : double)
| OutEstimated (coef_a coef_b : double)
| OutElapsed (seconds : double).

(** The environment of a run.  [rand_gen] and [clock_gen] are the values
    that successive calls of [rand()] and [clock()] return, [rand_pos] and
    [clock_pos] count the calls made so far, [stdout] holds what has been
    printed (latest first).  [host_status] is the termination status the host
    reports when [main] returns without a value: ISO C (5.1.2.2.3) leaves it
    unspecified when the return type of [main] is not [int]. *)
Record world : Type := mk_world {
  rand_gen : nat -> Z;
  rand_pos : nat;
  clock_gen : nat -> Z;
  clock_pos : nat;
  stdout : list output;
  host_status : Z
}.

Definition rand (w : world) : result (Z * world) :=
  Ok (rand_gen w (rand_pos w),
      mk_world (rand_gen w) (S (rand_pos w)) (clock_gen w) (clock_pos w)
               (stdout w) (host_status w)).

Definition clock (w : world) : result (Z * world) :=
  Ok (clock_gen w (clock_pos w),
      mk_world (rand_gen w) (rand_pos w) (clock_gen w) (S (clock_pos w))
               (stdout w) (host_status w)).

Definition printf (o : output) (w : world) : result world :=
  Ok (mk_world (rand_gen w) (rand_pos w) (clock_gen w) (clock_pos w)
               (o :: stdout w) (host_status w)).

Section Platform.

(** Macros of the C library, not fixed by the program. *)
Variable RAND_MAX : Z.
Variable CLOCKS_PER_SEC : Z.

(** [get_random_number] (lines 33 to 36):
    [((double) rand() / (double) RAND_MAX) * upper_bound]. *)
Definition get_random_number (upper_bound : Z) (w : world)
  : result (double * world) :=
  '(r, w) <- rand w ;;
  q <- ddiv (of_int r) (of_int RAND_MAX) ;;
  Ok (q * of_int upper_bound, w).

(** [get_random_data] (lines 51 to 69).  Each iteration writes [x[i]], reads
    it back for [y[i]] and so calls [rand()] twice, first for [x], then for
    the noise. *)
Definition get_random_data (n : Z) (true_coefs : ab) (x_ub noise_ub : Z)
    (w : world) : result (dataset * world) :=
  let x := malloc_doubles n in
  let y := malloc_doubles n in
  '(_, (x, y, w)) <-
    for_loop 0 n (fun i '(x, y, w) =>
      '(rx, w) <- get_random_number x_ub w ;;
      x <- store x i rx ;;
      xi <- load x i ;;
      '(e, w) <- get_random_number noise_ub w ;;
      y <- store y i ((a true_coefs * xi + b true_coefs) + e) ;;
      Ok (x, y, w)) (x, y, w) ;;
  Ok (mk_dataset x y, w).

(** [get_loss] (lines 82 to 94); [pow(d, 2)] is the square [d ^ 2]. *)
Definition get_loss (data : dataset) (n : Z) (current_coefs : ab)
  : result double :=
  '(_, square_sum) <-
    for_loop 0 n (fun i square_sum =>
      x <- load (data_0 data) i ;;
      y_true <- load (data_1 data) i ;;
      let y_pred := x * a current_coefs + b current_coefs in
      Ok (square_sum + (y_true - y_pred) ^ 2)) 0 ;;
  ddiv square_sum (of_int n).

(** [get_loss_gradient] (lines 107 to 123). *)
Definition get_loss_gradient (data : dataset) (n : Z) (current_coefs : ab)
  : result ab :=
  '(_, (a_grad, b_grad)) <-
    for_loop 0 n (fun i '(a_grad, b_grad) =>
      x <- load (data_0 data) i ;;
      y_true <- load (data_1 data) i ;;
      Ok (a_grad + - x * (y_true - (a current_coefs * x + b current_coefs)),
          b_grad + - (y_true - (a current_coefs * x + b current_coefs))))
      (0, 0) ;;
  grad_a <- ddiv (a_grad * 2) (of_int n) ;;
  grad_b <- ddiv (b_grad * 2) (of_int n) ;;
  Ok (mk_ab grad_a grad_b).

(** [do_step] (lines 137 to 145). *)
Definition do_step (data : dataset) (n : Z) (current_coefs : ab)
    (learning_rate : double) : result ab :=
  grad <- get_loss_gradient data n current_coefs ;;
  Ok (mk_ab (a current_coefs - learning_rate * a grad)
            (b current_coefs - learning_rate * b grad)).

(** The loop of [main] (lines 168 to 170), with the learning rate and the
    number of steps as arguments: the optimizer of the specification. *)
Definition main_loop (data : dataset) (n : Z) (current_coefs : ab)
    (learning_rate : double) (steps : Z) : result (Z * ab) :=
  for_loop 0 steps
    (fun _ current_coefs => do_step data n current_coefs learning_rate)
    current_coefs.

(** [main] (lines 152 to 182).  It is declared [void] and has no [return]
    or [exit], so a run yields a final world and no value. *)
Definition main (w : world) : result (unit * world) :=
  let n := DATA_SIZE in
  let true_coefs := mk_ab (of_int TRUE_A) (of_int TRUE_B) in
  let current_coefs := mk_ab 1 0 in
  '(data, w) <- get_random_data n true_coefs X_UB NOISE_UB w ;;
  w <- printf OutComputing w ;;
  w <- printf (OutDatasetSize n) w ;;
  '(t_start, w) <- clock w ;;
  '(i, current_coefs) <- main_loop data n current_coefs LEARNING_RATE STEPS ;;
  '(t_end, w) <- clock w ;;
  cpu_time_used <- ddiv (of_int (t_end - t_start)) (of_int CLOCKS_PER_SEC) ;;
  current_loss <- get_loss data n current_coefs ;;
  w <- printf (OutFinished i current_loss) w ;;
  w <- printf (OutEstimated (a current_coefs) (b current_coefs)) w ;;
  w <- printf (OutElapsed cpu_time_used) w ;;
  Ok (tt, w).

End Platform.

(** ** The loss evaluator in binary64 arithmetic

    [get_loss] once more, with every operation on [double] rounded as IEEE
    754 binary64 does.  [pow(d, 2)] is the rounded square of [d].  A
    conversion from [int] is exact.  Division follows IEEE 754 (a zero divisor
    gives an infinity or NaN). *)

Module Binary64.

Definition prec : Z := 53.
Definition emax : Z := 1024.

Definition double : Type := spec_float.

Definition add : double -> double -> double := SFadd prec emax.
Definition sub : double -> double -> double := SFsub prec emax.
Definition mul : double -> double -> double := SFmul prec emax.
Definition div : double -> double -> double := SFdiv prec emax.

(** Conversion of an [int] to [double]. *)
Definition of_int (z : Z) : double := binary_normalize prec emax z 0 false.

(** [pow(d, 2)]. *)
Definition pow_2 (d : double) : double := mul d d.

(** The double [+0.0] and the double [2^e]. *)
Definition zero : double := S754_zero false.
Definition two_pow (e : Z) : double := binary_normalize prec emax 1 e false.

Definition array : Type := list double.

Definition load (p : array) (i : Z) : result double :=
  if (i <? 0)%Z then Err OutOfBounds
  else match nth_error p (Z.to_nat i) with
       | Some v => Ok v
       | None => Err OutOfBounds
       end.

Record dataset : Type := mk_dataset {
  data_0 : array;
  data_1 : array
}.

Record ab : Type := mk_ab {
  a : double;
  b : double
}.

(** [get_loss] (lines 82 to 94). *)
Definition get_loss (data : dataset) (n : Z) (current_coefs : ab)
  : result double :=
  '(_, square_sum) <-
    for_loop 0 n (fun i square_sum =>
      x <- load (data_0 data) i ;;
      y_true <- load (data_1 data) i ;;
      let y_pred := add (mul x (a current_coefs)) (b current_coefs) in
      Ok (add square_sum (pow_2 (sub y_true y_pred)))) zero ;;
  Ok (div square_sum (of_int n)).

Definition observations (data : dataset) : list (double * double) :=
  combine (data_0 data) (data_1 data).

Definition dataset_of_size (data : dataset) (n : Z) : Prop :=
  Z.of_nat (length (data_0 data)) = n /\ Z.of_nat (length (data_1 data)) = n.

(** [x < 0], as the C comparison: false for a NaN and for both zeros. *)
Definition is_negative (x : double) : bool := SFltb x zero.

Definition is_zero (x : double) : bool :=
  match x with
  | S754_zero _ => true
  | _ => false
  end.

(** Neither an infinity nor a NaN. *)
Definition is_finite (x : double) : bool :=
  match x with
  | S754_zero _ | S754_finite _ _ _ => true
  | _ => false
  end.

Definition is_nan (x : double) : bool :=
  match x with
  | S754_nan => true
  | _ => false
  end.

Definition sign_bit (x : double) : bool :=
  match x with
  | S754_zero s | S754_infinity s | S754_finite s _ _ => s
  | S754_nan => false
  end.

(** [y == x * coefs.a + coefs.b], computed as [get_loss] computes the
    prediction. *)
Definition on_the_line (coefs : ab) (p : double * double) : bool :=
  SFeqb (snd p) (add (mul (fst p) (a coefs)) (b coefs)).

End Binary64.

(** ** The quantities the specification speaks of *)

Definition Rsum (l : list R) : R := fold_right Rplus 0 l.

(** The observations [(x_i, y_i)] of a dataset, in order. *)
Definition observations (data : dataset) : list (R * R) :=
  combine (data_0 data) (data_1 data).

(** A dataset of [n] observations: both buffers hold [n] numbers. *)
Definition dataset_of_size (data : dataset) (n : Z) : Prop :=
  Z.of_nat (length (data_0 data)) = n /\ Z.of_nat (length (data_1 data)) = n.

(** [r_i = y_i - (coefs.a * x_i + coefs.b)]. *)
Definition residual (coefs : ab) (p : R * R) : R :=
  snd p - (a coefs * fst p + b coefs).

(** [(1/n) * Σ (y_i - (coefs.a * x_i + coefs.b))²]. *)
Definition mean_squared_error (data : dataset) (n : Z) (coefs : ab) : R :=
  (1 / IZR n) * Rsum (map (fun p => (residual coefs p) ^ 2) (observations data)).

(** [{a: 2 * Σ (-x_i * r_i) / n, b: 2 * Σ (-r_i) / n}]. *)
Definition gradient_formula (data : dataset) (n : Z) (coefs : ab) : ab :=
  mk_ab (2 * Rsum (map (fun p => - fst p * residual coefs p) (observations data))
           / IZR n)
        (2 * Rsum (map (fun p => - residual coefs p) (observations data))
           / IZR n).

(** One update: [(a - learningRate * grad.a, b - learningRate * grad.b)]. *)
Definition gradient_update (data : dataset) (n : Z) (learning_rate : R)
    (coefs : ab) : ab :=
  mk_ab (a coefs - learning_rate * a (gradient_formula data n coefs))
        (b coefs - learning_rate * b (gradient_formula data n coefs)).

(** The loss the code computes, as a function of the two coefficients. *)
Definition loss_value (data : dataset) (n : Z) (coef_a coef_b : R) : R :=
  match get_loss data n (mk_ab coef_a coef_b) with
  | Ok v => v
  | Err _ => 0
  end.

(** Every value [rand()] returns lies between [0] and [RAND_MAX]. *)
Definition rand_in_range (RAND_MAX : Z) (w : world) : Prop :=
  forall k : nat, (0 <= rand_gen w k <= RAND_MAX)%Z.

(** The world after [k] more calls of [rand()]. *)
Definition after_draws (w : world) (k : nat) : world :=
  mk_world (rand_gen w) (rand_pos w + k) (clock_gen w) (clock_pos w)
           (stdout w) (host_status w).

(** The number [get_random_number upper_bound] makes of the [k]-th next
    value of [rand()]. *)
Definition random_draw (RAND_MAX : Z) (w : world) (k : nat) (upper_bound : Z)
  : R :=
  IZR (rand_gen w (rand_pos w + k)) / IZR RAND_MAX * IZR upper_bound.

(** A world in which [rand()] always returns [r], the clock stands at [0],
    nothing has been printed and the host reports [status]. *)
Definition constant_world (r status : Z) : world :=
  mk_world (fun _ => r) 0 (fun _ => 0%Z) 0 [] status.

(** The termination status the host sees: [main] is declared [void] and
    returns no value, so a run that reaches the end of [main] leaves the
    status to the host; a run stopped by an error has none. *)
Definition exit_status (r : result (unit * world)) : option Z :=
  match r with
  | Ok (_, w) => Some (host_status w)
  | Err _ => None
  end.

(** What a run has printed when it ends (latest first). *)
Definition printed (r : result (unit * world)) : list output :=
  match r with
  | Ok (_, w) => stdout w
  | Err _ => []
  end.

(** The value of a successful computation in a world. *)
Definition fst_ok {A : Type} (r : result (A * world)) : option A :=
  match r with
  | Ok (x, _) => Some x
  | Err _ => None
  end.

(** * Properties *)

(** ** Loops *)

Lemma for_loop_done {St : Type} (i n : Z) (body : Z -> St -> result St) (s : St) :
  (n <= i)%Z -> for_loop i n body s = Ok (i, s).
Proof.
  intros Hle. rewrite for_loop_equation_1.
  destruct (Z_lt_dec i n) as [Hlt | Hge]; [lia | reflexivity].
Qed.

Lemma for_loop_step {St : Type} (i n : Z) (body : Z -> St -> result St) (s : St) :
  (i < n)%Z ->
  for_loop i n body s =
  match body i s with
  | Ok s' => for_loop (i + 1) n body s'
  | Err e => Err e
  end.
Proof.
  intros Hlt. rewrite for_loop_equation_1.
  destruct (Z_lt_dec i n) as [Hlt' | Hge]; [| lia].
  simpl. destruct (body i s); reflexivity.
Qed.

(** Invariant rule: an invariant that the body preserves holds when the loop
    ends, and the loop ends with its counter equal to the bound. *)
Lemma for_loop_invariant {St : Type} (Inv : Z -> St -> Prop)
    (lo n : Z) (body : Z -> St -> result St) (s : St) :
  (lo <= n)%Z ->
  Inv lo s ->
  (forall i t, (lo <= i < n)%Z -> Inv i t ->
     exists t', body i t = Ok t' /\ Inv (i + 1)%Z t') ->
  exists s', for_loop lo n body s = Ok (n, s') /\ Inv n s'.
Proof.
  intros Hle H0 Hbody.
  remember (Z.to_nat (n - lo)) as k eqn:Hk.
  revert lo s Hle H0 Hbody Hk.
  induction k as [| k IH]; intros lo s Hle H0 Hbody Hk.
  - assert (lo = n) by lia. subst lo.
    exists s. split; [apply for_loop_done; lia | assumption].
  - assert (Hlt : (lo < n)%Z) by lia.
    destruct (Hbody lo s) as [t [Ht Hinv]]; [lia | assumption |].
    rewrite (for_loop_step lo n body s Hlt), Ht.
    apply IH; try lia; try assumption.
    intros i u Hi Hu. apply Hbody; [lia | assumption].
Qed.

(** Bodies that agree give the same loop. *)
Lemma for_loop_ext {St : Type} (lo n : Z) (body1 body2 : Z -> St -> result St)
    (s : St) :
  (forall i t, body1 i t = body2 i t) ->
  for_loop lo n body1 s = for_loop lo n body2 s.
Proof.
  intros Hext.
  remember (Z.to_nat (n - lo)) as k eqn:Hk.
  revert lo s Hk.
  induction k as [| k IH]; intros lo s Hk.
  - rewrite !for_loop_done by lia. reflexivity.
  - rewrite !for_loop_step by lia. rewrite Hext.
    destruct (body2 lo s) as [t | e]; [apply IH; lia | reflexivity].
Qed.

(** ** Numbers and buffers *)

Lemma ddiv_ok (x y : double) : y <> 0 -> ddiv x y = Ok (x / y).
Proof.
  intros Hy. unfold ddiv. destruct (Req_dec_T y 0); [contradiction | reflexivity].
Qed.

Lemma ddiv_by_zero (x : double) : ddiv x 0 = Err DivisionByZero.
Proof.
  unfold ddiv. destruct (Req_dec_T 0 0) as [_ | Hne]; [reflexivity |].
  exfalso. apply Hne. reflexivity.
Qed.

Lemma of_int_nonzero (n : Z) : n <> 0%Z -> of_int n <> 0.
Proof.
  intros Hn. unfold of_int. apply not_0_IZR. exact Hn.
Qed.

Lemma load_in_bounds (p : array) (i : Z) :
  (0 <= i < Z.of_nat (length p))%Z ->
  load p i = Ok (nth (Z.to_nat i) p 0).
Proof.
  intros Hi. unfold load.
  destruct (Z.ltb_spec i 0) as [Hneg | _]; [lia |].
  destruct (nth_error p (Z.to_nat i)) as [v |] eqn:Hnth.
  - rewrite (nth_error_nth p (Z.to_nat i) 0 Hnth). reflexivity.
  - apply nth_error_None in Hnth. lia.
Qed.

Lemma load_never_division_by_zero (p : array) (i : Z) :
  load p i <> Err DivisionByZero.
Proof.
  unfold load. destruct (i <? 0)%Z; [discriminate |].
  destruct (nth_error p (Z.to_nat i)); discriminate.
Qed.

Lemma update_length (p : array) (k : nat) (v : double) :
  length (update p k v) = length p.
Proof.
  revert k. induction p as [| u q IH]; intros [| j]; simpl; auto.
Qed.

Lemma nth_update_same (p : array) (k : nat) (v d : double) :
  (k < length p)%nat -> nth k (update p k v) d = v.
Proof.
  revert k. induction p as [| u q IH]; intros [| j] Hk; simpl in *; try lia.
  - reflexivity.
  - apply IH. lia.
Qed.

Lemma nth_update_other (p : array) (k j : nat) (v d : double) :
  j <> k -> nth j (update p k v) d = nth j p d.
Proof.
  revert k j. induction p as [| u q IH]; intros [| k] [| j] Hne; simpl;
    try reflexivity; try congruence.
  apply IH. congruence.
Qed.

Lemma store_in_bounds (p : array) (i : Z) (v : double) :
  (0 <= i < Z.of_nat (length p))%Z ->
  store p i v = Ok (update p (Z.to_nat i) v).
Proof.
  intros Hi. unfold store.
  destruct (Z.ltb_spec i 0) as [Hneg | _]; [lia |].
  destruct (Nat.ltb_spec (Z.to_nat i) (length p)) as [_ | Hge]; [reflexivity | lia].
Qed.

(** ** Sums over the observations *)

Lemma Rsum_map_scal {A : Type} (c : R) (g : A -> R) (l : list A) :
  Rsum (map (fun p => c * g p) l) = c * Rsum (map g l).
Proof.
  induction l as [| p l IH]; simpl; [lra | rewrite IH; lra].
Qed.

Lemma Rsum_map_ext {A : Type} (g1 g2 : A -> R) (l : list A) :
  (forall p, g1 p = g2 p) -> Rsum (map g1 l) = Rsum (map g2 l).
Proof.
  intros Hext. induction l as [| p l IH]; simpl; [| rewrite Hext, IH]; reflexivity.
Qed.

Lemma fold_left_Rsum {A : Type} (g : A -> R) (l : list A) (s0 : R) :
  fold_left (fun s p => s + g p) l s0 = s0 + Rsum (map g l).
Proof.
  revert s0. induction l as [| p l IH]; intros s0; simpl; [lra | rewrite IH; lra].
Qed.

Lemma firstn_succ_nth {A : Type} (l : list A) (k : nat) (d : A) :
  (k < length l)%nat -> firstn (S k) l = firstn k l ++ [nth k l d].
Proof.
  revert k. induction l as [| x l IH]; intros k Hk; simpl in Hk; [lia |].
  destruct k as [| k]; [reflexivity |].
  change (firstn (S (S k)) (x :: l)) with (x :: firstn (S k) l).
  rewrite (IH k) by lia. reflexivity.
Qed.

Lemma observations_length (data : dataset) (n : Z) :
  dataset_of_size data n -> Z.of_nat (length (observations data)) = n.
Proof.
  intros [Hx Hy]. unfold observations. rewrite length_combine. lia.
Qed.

Lemma observations_nth (data : dataset) (n : Z) (k : nat) :
  dataset_of_size data n ->
  nth k (observations data) (0, 0) = (nth k (data_0 data) 0, nth k (data_1 data) 0).
Proof.
  intros [Hx Hy]. unfold observations. apply combine_nth. lia.
Qed.

(** A loop that reads the [i]-th observation at iteration [i] and folds it
    into its state computes the left fold over the observations. *)
Lemma for_loop_observations {St : Type} (f : St -> R * R -> St)
    (data : dataset) (n : Z) (s0 : St) :
  dataset_of_size data n ->
  for_loop 0 n
    (fun i s =>
       x <- load (data_0 data) i ;;
       y <- load (data_1 data) i ;;
       Ok (f s (x, y))) s0
  = Ok (n, fold_left f (observations data) s0).
Proof.
  intros Hsize.
  pose proof (observations_length data n Hsize) as Hlen.
  destruct (for_loop_invariant
              (fun i s => s = fold_left f (firstn (Z.to_nat i) (observations data)) s0)
              0 n
              (fun i s =>
                 x <- load (data_0 data) i ;;
                 y <- load (data_1 data) i ;;
                 Ok (f s (x, y))) s0) as [s' [Hrun Hinv]].
  - lia.
  - reflexivity.
  - intros i t Hi Ht. destruct Hsize as [Hx Hy].
    rewrite !load_in_bounds by lia. simpl.
    eexists. split; [reflexivity |].
    replace (Z.to_nat (i + 1)) with (S (Z.to_nat i)) by lia.
    rewrite (firstn_succ_nth _ _ (0, 0)) by lia.
    rewrite fold_left_app. simpl. rewrite <- Ht.
    rewrite (observations_nth data n) by (split; assumption).
    reflexivity.
  - rewrite Hrun, Hinv. rewrite firstn_all2 by lia. reflexivity.
Qed.

Lemma fold_left_Rsum_pair {A : Type} (g h : A -> R) (l : list A) (s1 s2 : R) :
  fold_left (fun s p => (fst s + g p, snd s + h p)) l (s1, s2)
  = (s1 + Rsum (map g l), s2 + Rsum (map h l)).
Proof.
  revert s1 s2. induction l as [| p l IH]; intros s1 s2; simpl.
  - f_equal; lra.
  - rewrite IH. f_equal; lra.
Qed.

(** ** The loss evaluator and the gradient computer *)

(** The loop of [get_loss] leaves the sum of the squared residuals. *)
Lemma get_loss_loop (data : dataset) (n : Z) (coefs : ab) :
  dataset_of_size data n ->
  for_loop 0 n
    (fun i square_sum =>
       x <- load (data_0 data) i ;;
       y_true <- load (data_1 data) i ;;
       let y_pred := x * a coefs + b coefs in
       Ok (square_sum + (y_true - y_pred) ^ 2)) 0
  = Ok (n, Rsum (map (fun p => (residual coefs p) ^ 2) (observations data))).
Proof.
  intros Hsize.
  pose proof (for_loop_observations
                (fun s p => s + (snd p - (fst p * a coefs + b coefs)) ^ 2)
                data n 0 Hsize) as Hloop.
  rewrite fold_left_Rsum, Rplus_0_l in Hloop.
  etransitivity; [exact Hloop |]. do 2 f_equal.
  apply Rsum_map_ext.
  intros p. unfold residual. f_equal. lra.
Qed.

Lemma get_loss_closed_form (data : dataset) (n : Z) (coefs : ab) :
  dataset_of_size data n -> n <> 0%Z ->
  get_loss data n coefs = Ok (mean_squared_error data n coefs).
Proof.
  intros Hsize Hn. unfold get_loss.
  match goal with
  | |- bind ?m _ = _ =>
      replace m with (Ok (n, Rsum (map (fun p => (residual coefs p) ^ 2)
                                       (observations data))))
        by (symmetry; exact (get_loss_loop data n coefs Hsize))
  end. cbn [bind].
  rewrite ddiv_ok by (apply of_int_nonzero; exact Hn).
  unfold mean_squared_error, of_int. f_equal. unfold Rdiv. ring.
Qed.

(** The loop of [get_loss_gradient] leaves the two sums of the gradient. *)
Lemma get_loss_gradient_loop (data : dataset) (n : Z) (coefs : ab) :
  dataset_of_size data n ->
  for_loop 0 n
    (fun i '(a_grad, b_grad) =>
       x <- load (data_0 data) i ;;
       y_true <- load (data_1 data) i ;;
       Ok (a_grad + - x * (y_true - (a coefs * x + b coefs)),
           b_grad + - (y_true - (a coefs * x + b coefs))))
    (0, 0)
  = Ok (n, (Rsum (map (fun p => - fst p * residual coefs p) (observations data)),
            Rsum (map (fun p => - residual coefs p) (observations data)))).
Proof.
  intros Hsize.
  pose proof (for_loop_observations
                (fun s p => (fst s + - fst p * residual coefs p,
                             snd s + - residual coefs p))
                data n (0, 0) Hsize) as Hloop.
  rewrite fold_left_Rsum_pair, !Rplus_0_l in Hloop.
  rewrite <- Hloop. apply for_loop_ext.
  intros i [a_grad b_grad]. reflexivity.
Qed.

Lemma get_loss_gradient_closed_form (data : dataset) (n : Z) (coefs : ab) :
  dataset_of_size data n -> n <> 0%Z ->
  get_loss_gradient data n coefs = Ok (gradient_formula data n coefs).
Proof.
  intros Hsize Hn. unfold get_loss_gradient.
  match goal with
  | |- bind ?m _ = _ =>
      replace m with
        (Ok (n, (Rsum (map (fun p => - fst p * residual coefs p)
                           (observations data)),
                 Rsum (map (fun p => - residual coefs p) (observations data)))))
        by (symmetry; exact (get_loss_gradient_loop data n coefs Hsize))
  end. cbn [bind].
  rewrite !ddiv_ok by (apply of_int_nonzero; exact Hn). cbn [bind].
  unfold gradient_formula, of_int. do 2 f_equal; unfold Rdiv; ring.
Qed.

(** The functions on the dataset [(1, 3), (2, 5)] at the initial
    coefficients of [main]: the residuals are [2] and [3]. *)
Example get_loss_example :
  get_loss (mk_dataset [1; 2] [3; 5]) 2 (mk_ab 1 0) = Ok (13 / 2).
Proof.
  rewrite get_loss_closed_form; [| split; reflexivity | lia].
  unfold mean_squared_error, observations, residual. simpl.
  f_equal. field.
Qed.

Example get_loss_gradient_example :
  get_loss_gradient (mk_dataset [1; 2] [3; 5]) 2 (mk_ab 1 0)
  = Ok (mk_ab (- 8) (- 5)).
Proof.
  rewrite get_loss_gradient_closed_form; [| split; reflexivity | lia].
  unfold gradient_formula, observations, residual. simpl.
  do 2 f_equal; field.
Qed.

Example get_loss_on_the_line_example :
  get_loss (mk_dataset [1; 2] [3; 5]) 2 (mk_ab 2 1) = Ok 0.
Proof.
  rewrite get_loss_closed_form; [| split; reflexivity | lia].
  unfold mean_squared_error, observations, residual. simpl.
  f_equal. field.
Qed.

Example get_loss_empty_example :
  get_loss (mk_dataset [] []) 0 (mk_ab 1 0) = Err DivisionByZero.
Proof.
  unfold get_loss. rewrite for_loop_done by lia. cbn [bind].
  apply ddiv_by_zero.
Qed.

Example get_loss_short_buffer_example :
  get_loss (mk_dataset [1] [3]) 2 (mk_ab 1 0) = Err OutOfBounds.
Proof.
  unfold get_loss.
  rewrite for_loop_step by lia. simpl.
  rewrite for_loop_step by lia. reflexivity.
Qed.

(** C1.  For a dataset of [n >= 1] observations and any coefficients,
    [get_loss] returns the mean squared error
    [(1/n) * Σ (y_i - (coefs.a * x_i + coefs.b))²] taken over all [n]
    observations. *)
Theorem get_loss_mean_squared_error (data : dataset) (n : Z) (coefs : ab) :
  dataset_of_size data n -> (1 <= n)%Z ->
  get_loss data n coefs =
  Ok ((1 / IZR n) *
      Rsum (map (fun p => (snd p - (a coefs * fst p + b coefs)) ^ 2)
                (observations data))).
Proof.
  intros Hsize Hn.
  rewrite (get_loss_closed_form data n coefs Hsize) by lia.
  reflexivity.
Qed.

Lemma get_loss_mean_squared_error_witness :
  dataset_of_size (mk_dataset [1; 2] [3; 5]) 2 /\ (1 <= 2)%Z /\
  get_loss (mk_dataset [1; 2] [3; 5]) 2 (mk_ab 2 1) =
  Ok ((1 / IZR 2) *
      Rsum (map (fun p => (snd p - (a (mk_ab 2 1) * fst p + b (mk_ab 2 1))) ^ 2)
                (observations (mk_dataset [1; 2] [3; 5])))).
Proof.
  assert (Hsize : dataset_of_size (mk_dataset [1; 2] [3; 5]) 2)
    by (split; reflexivity).
  assert (Hn : (1 <= 2)%Z) by lia.
  split; [exact Hsize | split; [exact Hn |]].
  exact (get_loss_mean_squared_error (mk_dataset [1; 2] [3; 5]) 2 (mk_ab 2 1)
           Hsize Hn).
Defined.

(** ** Derivatives of the loss *)

Lemma derivable_pt_lim_ext (f g : R -> R) (x l : R) :
  (forall t, f t = g t) -> derivable_pt_lim g x l -> derivable_pt_lim f x l.
Proof.
  intros Hext Hg eps Heps.
  destruct (Hg eps Heps) as [delta Hdelta].
  exists delta. intros h Hh Hsmall. rewrite !Hext. apply Hdelta; assumption.
Qed.

Lemma derivable_pt_lim_value (f : R -> R) (x l l' : R) :
  l = l' -> derivable_pt_lim f x l -> derivable_pt_lim f x l'.
Proof.
  intros <-. exact (fun H => H).
Qed.

(** An affine function [t |-> alpha * t + beta] has derivative [alpha]. *)
Lemma derivable_pt_lim_affine (alpha beta x : R) :
  derivable_pt_lim (fun t => alpha * t + beta) x alpha.
Proof.
  intros eps Heps. exists (mkposreal 1 Rlt_0_1). intros h Hh _.
  replace ((alpha * (x + h) + beta - (alpha * x + beta)) / h - alpha) with 0
    by (field; exact Hh).
  rewrite Rabs_R0. exact Heps.
Qed.

(** The square of a differentiable function. *)
Lemma derivable_pt_lim_square (u : R -> R) (x l : R) :
  derivable_pt_lim u x l ->
  derivable_pt_lim (fun t => (u t) ^ 2) x (2 * (u x * l)).
Proof.
  intros Hu.
  apply (derivable_pt_lim_value _ _ (INR 2 * (u x) ^ pred 2 * l)).
  - simpl. ring.
  - exact (derivable_pt_lim_comp u (fun v => v ^ 2) x l _ Hu
             (derivable_pt_lim_pow (u x) 2)).
Qed.

(** A finite sum is differentiated term by term. *)
Lemma derivable_pt_lim_Rsum {A : Type} (g : R -> A -> R) (g' : A -> R)
    (l : list A) (x : R) :
  (forall p, derivable_pt_lim (fun t => g t p) x (g' p)) ->
  derivable_pt_lim (fun t => Rsum (map (g t) l)) x (Rsum (map g' l)).
Proof.
  intros Hg. induction l as [| p l IH]; simpl.
  - exact (derivable_pt_lim_const 0 x).
  - exact (derivable_pt_lim_plus (fun t => g t p)
             (fun t => Rsum (map (g t) l)) x _ _ (Hg p) IH).
Qed.

(** The squared residual of one observation, differentiated in the slope. *)
Lemma residual_square_derivative_a (p : R * R) (coefs : ab) :
  derivable_pt_lim (fun t => (residual (mk_ab t (b coefs)) p) ^ 2) (a coefs)
                   (2 * (- fst p * residual coefs p)).
Proof.
  apply (derivable_pt_lim_value _ _
           (2 * (residual (mk_ab (a coefs) (b coefs)) p * - fst p))).
  - unfold residual. simpl. ring.
  - apply (derivable_pt_lim_square (fun t => residual (mk_ab t (b coefs)) p)).
    apply (derivable_pt_lim_ext _ (fun t => - fst p * t + (snd p - b coefs))).
    + intros t. unfold residual. simpl. ring.
    + apply derivable_pt_lim_affine.
Qed.

(** The squared residual of one observation, differentiated in the
    intercept. *)
Lemma residual_square_derivative_b (p : R * R) (coefs : ab) :
  derivable_pt_lim (fun t => (residual (mk_ab (a coefs) t) p) ^ 2) (b coefs)
                   (2 * (- residual coefs p)).
Proof.
  apply (derivable_pt_lim_value _ _
           (2 * (residual (mk_ab (a coefs) (b coefs)) p * - 1))).
  - unfold residual. simpl. ring.
  - apply (derivable_pt_lim_square (fun t => residual (mk_ab (a coefs) t) p)).
    apply (derivable_pt_lim_ext _ (fun t => - 1 * t + (snd p - a coefs * fst p))).
    + intros t. unfold residual. simpl. ring.
    + apply derivable_pt_lim_affine.
Qed.

Lemma loss_value_closed_form (data : dataset) (n : Z) (coef_a coef_b : R) :
  dataset_of_size data n -> n <> 0%Z ->
  loss_value data n coef_a coef_b =
  mean_squared_error data n (mk_ab coef_a coef_b).
Proof.
  intros Hsize Hn. unfold loss_value.
  rewrite (get_loss_closed_form data n _ Hsize Hn). reflexivity.
Qed.

Lemma loss_value_derivative_a (data : dataset) (n : Z) (coefs : ab) :
  dataset_of_size data n -> n <> 0%Z ->
  derivable_pt_lim (fun t => loss_value data n t (b coefs)) (a coefs)
                   (a (gradient_formula data n coefs)).
Proof.
  intros Hsize Hn.
  apply (derivable_pt_lim_ext _
           (fun t => mean_squared_error data n (mk_ab t (b coefs)))).
  { intros t. apply loss_value_closed_form; assumption. }
  unfold mean_squared_error.
  apply (derivable_pt_lim_value _ _
           ((1 / IZR n) *
            Rsum (map (fun p => 2 * (- fst p * residual coefs p))
                      (observations data)))).
  { simpl. rewrite Rsum_map_scal. unfold Rdiv. ring. }
  apply (derivable_pt_lim_scal
           (fun t => Rsum (map (fun p => (residual (mk_ab t (b coefs)) p) ^ 2)
                               (observations data)))).
  apply (derivable_pt_lim_Rsum
           (fun t p => (residual (mk_ab t (b coefs)) p) ^ 2)).
  intros p. apply residual_square_derivative_a.
Qed.

Lemma loss_value_derivative_b (data : dataset) (n : Z) (coefs : ab) :
  dataset_of_size data n -> n <> 0%Z ->
  derivable_pt_lim (fun t => loss_value data n (a coefs) t) (b coefs)
                   (b (gradient_formula data n coefs)).
Proof.
  intros Hsize Hn.
  apply (derivable_pt_lim_ext _
           (fun t => mean_squared_error data n (mk_ab (a coefs) t))).
  { intros t. apply loss_value_closed_form; assumption. }
  unfold mean_squared_error.
  apply (derivable_pt_lim_value _ _
           ((1 / IZR n) *
            Rsum (map (fun p => 2 * (- residual coefs p))
                      (observations data)))).
  { simpl. rewrite Rsum_map_scal. unfold Rdiv. ring. }
  apply (derivable_pt_lim_scal
           (fun t => Rsum (map (fun p => (residual (mk_ab (a coefs) t) p) ^ 2)
                               (observations data)))).
  apply (derivable_pt_lim_Rsum
           (fun t p => (residual (mk_ab (a coefs) t) p) ^ 2)).
  intros p. apply residual_square_derivative_b.
Qed.

(** C2.  For a dataset of [n >= 1] observations and any coefficients,
    [get_loss_gradient] returns [{a: 2 * Σ (-x_i * r_i) / n,
    b: 2 * Σ (-r_i) / n}] with [r_i = y_i - (coefs.a * x_i + coefs.b)], and
    the two components are the partial derivatives, in the slope and in the
    intercept, of the loss that [get_loss] computes, taken at [coefs]. *)
Theorem get_loss_gradient_analytic (data : dataset) (n : Z) (coefs : ab) :
  dataset_of_size data n -> (1 <= n)%Z ->
  exists grad : ab,
    get_loss_gradient data n coefs = Ok grad /\
    a grad =
      2 * Rsum (map (fun p => - fst p * (snd p - (a coefs * fst p + b coefs)))
                    (observations data)) / IZR n /\
    b grad =
      2 * Rsum (map (fun p => - (snd p - (a coefs * fst p + b coefs)))
                    (observations data)) / IZR n /\
    derivable_pt_lim (fun t => loss_value data n t (b coefs)) (a coefs) (a grad) /\
    derivable_pt_lim (fun t => loss_value data n (a coefs) t) (b coefs) (b grad).
Proof.
  intros Hsize Hn.
  assert (Hn0 : n <> 0%Z) by lia.
  exists (gradient_formula data n coefs).
  split; [apply get_loss_gradient_closed_form; assumption |].
  split; [reflexivity |].
  split; [reflexivity |].
  split; [apply loss_value_derivative_a | apply loss_value_derivative_b];
    assumption.
Qed.

Lemma get_loss_gradient_analytic_witness :
  dataset_of_size (mk_dataset [1; 2] [3; 5]) 2 /\ (1 <= 2)%Z /\
  exists grad : ab,
    get_loss_gradient (mk_dataset [1; 2] [3; 5]) 2 (mk_ab 0 1) = Ok grad /\
    derivable_pt_lim (fun t => loss_value (mk_dataset [1; 2] [3; 5]) 2 t 1) 0
                     (a grad) /\
    derivable_pt_lim (fun t => loss_value (mk_dataset [1; 2] [3; 5]) 2 0 t) 1
                     (b grad).
Proof.
  assert (Hsize : dataset_of_size (mk_dataset [1; 2] [3; 5]) 2)
    by (split; reflexivity).
  assert (Hn : (1 <= 2)%Z) by lia.
  split; [exact Hsize | split; [exact Hn |]].
  destruct (get_loss_gradient_analytic (mk_dataset [1; 2] [3; 5]) 2 (mk_ab 0 1)
              Hsize Hn) as [grad [Hrun [_ [_ [Ha Hb]]]]].
  exists grad. split; [exact Hrun | split; [exact Ha | exact Hb]].
Defined.

(** ** Sign of the loss *)

Lemma Rsum_squares_nonneg {A : Type} (g : A -> R) (l : list A) :
  0 <= Rsum (map (fun p => (g p) ^ 2) l).
Proof.
  induction l as [| p l IH]; cbn [map Rsum fold_right]; [lra |].
  fold (Rsum (map (fun q => (g q) ^ 2) l)).
  pose proof (pow2_ge_0 (g p)) as Hsq. lra.
Qed.

Lemma Rsum_squares_zero {A : Type} (g : A -> R) (l : list A) :
  Rsum (map (fun p => (g p) ^ 2) l) = 0 <-> Forall (fun p => g p = 0) l.
Proof.
  induction l as [| p l IH]; cbn [map Rsum fold_right].
  - split; [constructor | reflexivity].
  - fold (Rsum (map (fun q => (g q) ^ 2) l)).
    pose proof (pow2_ge_0 (g p)) as Hsq.
    pose proof (Rsum_squares_nonneg g l) as Hrest.
    split.
    + intros Hsum.
      assert (Hp : (g p) ^ 2 = 0) by lra.
      assert (Hl : Rsum (map (fun q => (g q) ^ 2) l) = 0) by lra.
      constructor; [| apply IH; exact Hl].
      destruct (Req_dec_T (g p) 0) as [Hz | Hnz]; [exact Hz |].
      exfalso. apply (pow_nonzero (g p) 2 Hnz). exact Hp.
    + intros Hall. inversion Hall as [| q l' Hp Hl]; subst.
      apply IH in Hl. rewrite Hp, Hl. lra.
Qed.

(** Over the real numbers the loss is non-negative, and it is zero exactly
    when every observation lies on the line. *)
Lemma get_loss_sign_over_the_reals (data : dataset) (n : Z) (coefs : ab) :
  dataset_of_size data n -> (1 <= n)%Z ->
  exists loss : double,
    get_loss data n coefs = Ok loss /\
    0 <= loss /\
    (loss = 0 <->
     Forall (fun p => snd p = a coefs * fst p + b coefs) (observations data)).
Proof.
  intros Hsize Hn.
  exists (mean_squared_error data n coefs).
  split; [apply get_loss_closed_form; [assumption | lia] |].
  assert (Hpos : 0 < 1 / IZR n).
  { apply Rdiv_lt_0_compat; [lra | apply IZR_lt; lia]. }
  pose proof (Rsum_squares_nonneg (residual coefs) (observations data)) as Hsum.
  unfold mean_squared_error. split.
  - apply Rmult_le_pos; lra.
  - split.
    + intros Hzero.
      assert (Hsq : Rsum (map (fun p => (residual coefs p) ^ 2)
                              (observations data)) = 0)
        by (destruct (Rmult_integral _ _ Hzero); [lra | assumption]).
      apply Rsum_squares_zero in Hsq.
      apply (Forall_impl _ (P := fun p => residual coefs p = 0)); [| exact Hsq].
      intros p Hp. unfold residual in Hp. lra.
    + intros Hline.
      assert (Hsq : Rsum (map (fun p => (residual coefs p) ^ 2)
                              (observations data)) = 0).
      { apply Rsum_squares_zero.
        apply (Forall_impl _ (P := fun p => snd p = a coefs * fst p + b coefs));
          [| exact Hline].
        intros p Hp. unfold residual. lra. }
      rewrite Hsq. apply Rmult_0_r.
Qed.

(** *** In binary64 arithmetic *)

Lemma binary64_load_in_bounds (p : Binary64.array) (i : Z) :
  (0 <= i < Z.of_nat (length p))%Z ->
  Binary64.load p i = Ok (nth (Z.to_nat i) p S754_nan).
Proof.
  intros Hi. unfold Binary64.load.
  destruct (Z.ltb_spec i 0) as [Hneg | _]; [lia |].
  destruct (nth_error p (Z.to_nat i)) as [v |] eqn:Hnth.
  - rewrite (nth_error_nth p (Z.to_nat i) S754_nan Hnth). reflexivity.
  - apply nth_error_None in Hnth. lia.
Qed.

Lemma binary64_is_negative_cases (x : Binary64.double) :
  Binary64.is_negative x =
  match x with
  | S754_finite true _ _ | S754_infinity true => true
  | _ => false
  end.
Proof.
  destruct x as [[|] | [|] | | [|] m e]; reflexivity.
Qed.

(** Rounding keeps the sign it is given. *)
Lemma binary_round_aux_not_negative (m e : Z) (l : location) :
  Binary64.is_negative
    (binary_round_aux Binary64.prec Binary64.emax false m e l) = false.
Proof.
  unfold binary_round_aux.
  destruct (shr_fexp Binary64.prec Binary64.emax m e l) as [mrs1 e1].
  destruct (shr_fexp Binary64.prec Binary64.emax _ e1 loc_Exact) as [mrs2 e2].
  destruct (shr_m mrs2) as [| p | p]; [reflexivity | | reflexivity].
  destruct (e2 <=? Binary64.emax - Binary64.prec)%Z; reflexivity.
Qed.

Lemma binary_round_aux_sign_bit (m e : Z) (l : location) :
  Binary64.sign_bit
    (binary_round_aux Binary64.prec Binary64.emax false m e l) = false.
Proof.
  unfold binary_round_aux.
  destruct (shr_fexp Binary64.prec Binary64.emax m e l) as [mrs1 e1].
  destruct (shr_fexp Binary64.prec Binary64.emax _ e1 loc_Exact) as [mrs2 e2].
  destruct (shr_m mrs2) as [| p | p]; [reflexivity | | reflexivity].
  destruct (e2 <=? Binary64.emax - Binary64.prec)%Z; reflexivity.
Qed.

(** A square is never negative. *)
Lemma binary64_pow_2_not_negative (d : Binary64.double) :
  Binary64.is_negative (Binary64.pow_2 d) = false.
Proof.
  unfold Binary64.pow_2, Binary64.mul.
  destruct d as [s | s | | s m e]; cbn [SFmul].
  - destruct s; reflexivity.
  - destruct s; reflexivity.
  - reflexivity.
  - replace (xorb s s) with false by (destruct s; reflexivity).
    apply binary_round_aux_not_negative.
Qed.

(** Adding two numbers that are not negative gives one that is not. *)
Lemma binary64_add_not_negative (x y : Binary64.double) :
  Binary64.is_negative x = false -> Binary64.is_negative y = false ->
  Binary64.is_negative (Binary64.add x y) = false.
Proof.
  rewrite !binary64_is_negative_cases.
  destruct x as [sx | sx | | sx mx ex]; destruct y as [sy | sy | | sy my ey];
    try destruct sx; try destruct sy; intros Hx Hy; try discriminate;
    try reflexivity.
  unfold Binary64.add, SFadd. cbn [cond_Zopp Z.add binary_normalize].
  unfold binary_round.
  destruct (shl_align _ _ _) as [mz ez].
  rewrite <- binary64_is_negative_cases. apply binary_round_aux_not_negative.
Qed.

Lemma binary64_of_int_sign_bit (n : Z) :
  (1 <= n)%Z -> Binary64.sign_bit (Binary64.of_int n) = false.
Proof.
  intros Hn. destruct n as [| p | p]; try lia.
  unfold Binary64.of_int, binary_normalize, binary_round.
  destruct (shl_align _ _ _) as [mz ez].
  apply binary_round_aux_sign_bit.
Qed.

Lemma binary64_div_not_negative (x y : Binary64.double) :
  Binary64.is_negative x = false -> Binary64.sign_bit y = false ->
  Binary64.is_negative (Binary64.div x y) = false.
Proof.
  rewrite binary64_is_negative_cases.
  destruct x as [sx | sx | | sx mx ex]; destruct y as [sy | sy | | sy my ey];
    cbn [Binary64.sign_bit]; intros Hx Hy; subst; try discriminate;
    try destruct sx; try discriminate; try reflexivity.
  unfold Binary64.div, SFdiv.
  destruct (SFdiv_core_binary _ _ _ _ _ _) as [[mz ez] lz].
  apply binary_round_aux_not_negative.
Qed.

Lemma digits2_pos_size (p : positive) : digits2_pos p = Pos.size p.
Proof.
  induction p; simpl; congruence.
Qed.

Lemma digits2_pos_iter_xO (p k : positive) :
  digits2_pos (Pos.iter xO p k) = (digits2_pos p + k)%positive.
Proof.
  induction k as [| k IH] using Pos.peano_ind.
  - simpl. lia.
  - rewrite Pos.iter_succ. simpl. rewrite IH. lia.
Qed.

(** A mantissa of 53 bits with an exponent in range is not rounded. *)
Lemma binary_round_aux_canonical (s : bool) (m : positive) (e : Z) :
  Zpos (digits2_pos m) = 53%Z -> (-1074 <= e <= 971)%Z ->
  binary_round_aux Binary64.prec Binary64.emax s (Zpos m) e loc_Exact
  = S754_finite s m e.
Proof.
  intros Hd He.
  assert (Hshift : (fexp Binary64.prec Binary64.emax (Zdigits2 (Zpos m) + e) - e
                    = 0)%Z).
  { unfold fexp, emin, Binary64.prec, Binary64.emax. cbn [Zdigits2]. lia. }
  unfold binary_round_aux, shr_fexp. rewrite Hshift.
  cbn [shr shr_record_of_loc shr_m loc_of_shr_record round_nearest_even].
  rewrite Hshift. cbn [shr shr_record_of_loc shr_m].
  replace (e <=? Binary64.emax - Binary64.prec)%Z with true; [reflexivity |].
  symmetry. apply Z.leb_le. unfold Binary64.emax, Binary64.prec. lia.
Qed.

(** A positive [int] converts to a finite positive double. *)
Lemma binary64_of_int_finite (n : Z) :
  (1 <= n < 2 ^ 53)%Z ->
  exists m e, Binary64.of_int n = S754_finite false m e.
Proof.
  intros Hn. destruct n as [| p | p]; try lia.
  assert (Hsize : (Zpos (digits2_pos p) <= 53)%Z).
  { rewrite digits2_pos_size.
    destruct (Z_le_gt_dec (Zpos (Pos.size p)) 53) as [Hle | Hgt]; [exact Hle |].
    exfalso. pose proof (Pos.size_le p) as Hp.
    assert (H54 : (2 ^ 54 <= 2 ^ Zpos (Pos.size p))%Z)
      by (apply Z.pow_le_mono_r; lia).
    assert (Hpow : (2 ^ Zpos (Pos.size p) <= Zpos p~0)%Z).
    { rewrite <- Pos2Z.inj_pow. apply Pos2Z.pos_le_pos. exact Hp. }
    change (2 ^ 54)%Z with (2 * 2 ^ 53)%Z in H54. lia. }
  unfold Binary64.of_int, binary_normalize, binary_round, shl_align.
  set (d := Zpos (digits2_pos p)) in *.
  assert (Hfexp : fexp Binary64.prec Binary64.emax (d + 0) = (d - 53)%Z).
  { unfold fexp, emin, Binary64.prec, Binary64.emax. lia. }
  rewrite Hfexp.
  destruct (d - 53 - 0)%Z as [| k | k] eqn:Hk; try lia.
  - eexists. eexists. apply binary_round_aux_canonical; lia.
  - eexists. eexists. apply binary_round_aux_canonical; [| lia].
    rewrite digits2_pos_iter_xO. unfold d in *. lia.
Qed.

Lemma binary64_div_zero (n : Z) :
  (1 <= n < 2 ^ 31)%Z ->
  Binary64.div Binary64.zero (Binary64.of_int n) = Binary64.zero.
Proof.
  intros Hn. destruct (binary64_of_int_finite n) as [m [e Hfin]]; [lia |].
  rewrite Hfin. reflexivity.
Qed.

Lemma binary64_pow_2_zero (d : Binary64.double) :
  Binary64.is_zero d = true -> Binary64.pow_2 d = Binary64.zero.
Proof.
  destruct d as [s | s | | s m e]; try discriminate.
  intros _. destruct s; reflexivity.
Qed.

(** The difference of two equal finite doubles is a zero. *)
Lemma binary64_sub_equal (x y : Binary64.double) :
  Binary64.is_finite x = true -> SFeqb x y = true ->
  Binary64.is_zero (Binary64.sub x y) = true.
Proof.
  unfold SFeqb.
  destruct x as [sx | sx | | sx mx ex]; try discriminate; intros _;
    destruct y as [sy | sy | | sy my ey]; cbn [SFcompare];
    try discriminate; try (destruct sx; discriminate);
    try (destruct sy; discriminate).
  - intros _. destruct sx, sy; reflexivity.
  - destruct sx, sy; try discriminate;
      destruct (Z.compare ex ey) eqn:He; try discriminate;
      destruct (Pos.compare_cont Eq mx my) eqn:Hm; try discriminate;
      intros _; apply Z.compare_eq in He;
      change (Pos.compare_cont Eq mx my) with (Pos.compare mx my) in Hm;
      apply Pos.compare_eq in Hm; subst;
      unfold Binary64.sub, SFsub; rewrite Z.sub_diag; reflexivity.
Qed.

(** The loss computed in binary64 is never negative. *)
Lemma binary64_get_loss_not_negative (data : Binary64.dataset) (n : Z)
    (coefs : Binary64.ab) :
  Binary64.dataset_of_size data n -> (1 <= n)%Z ->
  exists loss : Binary64.double,
    Binary64.get_loss data n coefs = Ok loss /\
    Binary64.is_negative loss = false.
Proof.
  intros [Hx Hy] Hn. unfold Binary64.get_loss.
  match goal with
  | |- context [for_loop 0%Z n ?body ?s0] =>
      destruct (for_loop_invariant (fun _ s => Binary64.is_negative s = false)
                  0 n body s0) as [s [Hrun Hinv]]
  end.
  - lia.
  - reflexivity.
  - intros i t Hi Ht. rewrite !binary64_load_in_bounds by lia. cbn [bind].
    eexists. split; [reflexivity |].
    apply binary64_add_not_negative;
      [exact Ht | apply binary64_pow_2_not_negative].
  - rewrite Hrun. cbn [bind]. eexists. split; [reflexivity |].
    apply binary64_div_not_negative;
      [exact Hinv | apply binary64_of_int_sign_bit; exact Hn].
Qed.

(** The loss computed in binary64 is [+0.0] when every finite target equals
    its computed prediction. *)
Lemma binary64_get_loss_on_the_line (data : Binary64.dataset) (n : Z)
    (coefs : Binary64.ab) :
  Binary64.dataset_of_size data n -> (1 <= n < 2 ^ 31)%Z ->
  Forall (fun p => Binary64.is_finite (snd p) = true /\
                   Binary64.on_the_line coefs p = true)
         (Binary64.observations data) ->
  Binary64.get_loss data n coefs = Ok Binary64.zero.
Proof.
  intros [Hx Hy] Hn Hline. unfold Binary64.get_loss.
  match goal with
  | |- context [for_loop 0%Z n ?body ?s0] =>
      destruct (for_loop_invariant (fun _ s => s = Binary64.zero) 0 n body s0)
        as [s [Hrun Hinv]]
  end.
  - lia.
  - reflexivity.
  - intros i t Hi ->. rewrite !binary64_load_in_bounds by lia. cbn [bind].
    eexists. split; [reflexivity |].
    assert (Hin : In (nth (Z.to_nat i) (Binary64.data_0 data) S754_nan,
                      nth (Z.to_nat i) (Binary64.data_1 data) S754_nan)
                     (Binary64.observations data)).
    { unfold Binary64.observations. rewrite <- combine_nth by lia.
      apply nth_In. rewrite length_combine. lia. }
    rewrite Forall_forall in Hline. destruct (Hline _ Hin) as [Hfin Heq].
    unfold Binary64.on_the_line in Heq. cbn [fst snd] in Hfin, Heq.
    rewrite (binary64_pow_2_zero _ (binary64_sub_equal _ _ Hfin Heq)).
    reflexivity.
  - rewrite Hrun, Hinv. cbn [bind]. rewrite binary64_div_zero by lia.
    reflexivity.
Qed.

(** Shifting and rounding keep a mantissa non-negative, so that rounding
    never produces a NaN. *)
Lemma shr_1_nonneg (mrs : shr_record) :
  (0 <= shr_m mrs)%Z -> (0 <= shr_m (shr_1 mrs))%Z.
Proof.
  destruct mrs as [m r s]. cbn [shr_m]. intros Hm.
  destruct m as [| p | p]; [cbn [shr_1 shr_m]; lia | | lia].
  destruct p; cbn [shr_1 shr_m]; lia.
Qed.

Lemma iter_pos_shr_1_nonneg (p : positive) (mrs : shr_record) :
  (0 <= shr_m mrs)%Z -> (0 <= shr_m (iter_pos shr_1 p mrs))%Z.
Proof.
  revert mrs. induction p as [p IH | p IH |]; intros mrs Hm; cbn [iter_pos].
  - apply IH, IH, shr_1_nonneg, Hm.
  - apply IH, IH, Hm.
  - apply shr_1_nonneg, Hm.
Qed.

Lemma shr_fexp_nonneg (m e : Z) (l : location) :
  (0 <= m)%Z ->
  (0 <= shr_m (fst (shr_fexp Binary64.prec Binary64.emax m e l)))%Z.
Proof.
  intros Hm. unfold shr_fexp, shr.
  assert (Hrec : (0 <= shr_m (shr_record_of_loc m l))%Z)
    by (destruct l as [| []]; exact Hm).
  destruct (fexp Binary64.prec Binary64.emax (Zdigits2 m + e) - e)%Z
    as [| p | p]; cbn [fst]; try exact Hrec.
  apply iter_pos_shr_1_nonneg, Hrec.
Qed.

Lemma round_nearest_even_nonneg (m : Z) (l : location) :
  (0 <= m)%Z -> (0 <= round_nearest_even m l)%Z.
Proof.
  intros Hm. unfold round_nearest_even.
  destruct l as [| []]; try lia. destruct (Z.even m); lia.
Qed.

Lemma binary_round_aux_not_nan (s : bool) (m e : Z) (l : location) :
  (0 <= m)%Z ->
  Binary64.is_nan (binary_round_aux Binary64.prec Binary64.emax s m e l) = false.
Proof.
  intros Hm. unfold binary_round_aux.
  pose proof (shr_fexp_nonneg m e l Hm) as H1.
  destruct (shr_fexp Binary64.prec Binary64.emax m e l) as [mrs1 e1].
  cbn [fst] in H1.
  pose proof (shr_fexp_nonneg
                (round_nearest_even (shr_m mrs1) (loc_of_shr_record mrs1))
                e1 loc_Exact (round_nearest_even_nonneg _ _ H1)) as H2.
  destruct (shr_fexp Binary64.prec Binary64.emax _ e1 loc_Exact) as [mrs2 e2].
  cbn [fst] in H2.
  destruct (shr_m mrs2) as [| p | p]; [reflexivity | | lia].
  destruct (e2 <=? Binary64.emax - Binary64.prec)%Z; reflexivity.
Qed.

Lemma binary_normalize_not_nan (m e : Z) :
  Binary64.is_nan (binary_normalize Binary64.prec Binary64.emax m e false)
  = false.
Proof.
  unfold binary_normalize, binary_round.
  destruct m as [| p | p]; [reflexivity | |];
    destruct (shl_align _ _ _) as [mz ez];
    apply binary_round_aux_not_nan; lia.
Qed.

(** The product of two finite doubles is not a NaN. *)
Lemma binary64_mul_finite (x y : Binary64.double) :
  Binary64.is_finite x = true -> Binary64.is_finite y = true ->
  Binary64.is_nan (Binary64.mul x y) = false.
Proof.
  destruct x as [sx | sx | | sx mx ex]; try discriminate;
    destruct y as [sy | sy | | sy my ey]; try discriminate; intros _ _;
    try reflexivity.
  unfold Binary64.mul, SFmul. apply binary_round_aux_not_nan. lia.
Qed.

(** Adding a finite double to one that is not a NaN gives no NaN, and so
    does subtracting from a finite double one that is not a NaN. *)
Lemma binary64_add_finite (x y : Binary64.double) :
  Binary64.is_nan x = false -> Binary64.is_finite y = true ->
  Binary64.is_nan (Binary64.add x y) = false.
Proof.
  destruct x as [sx | sx | | sx mx ex]; try discriminate;
    destruct y as [sy | sy | | sy my ey]; try discriminate; intros _ _;
    try reflexivity.
  - destruct sx, sy; reflexivity.
  - unfold Binary64.add, SFadd. apply binary_normalize_not_nan.
Qed.

Lemma binary64_sub_finite (x y : Binary64.double) :
  Binary64.is_finite x = true -> Binary64.is_nan y = false ->
  Binary64.is_nan (Binary64.sub x y) = false.
Proof.
  destruct x as [sx | sx | | sx mx ex]; try discriminate;
    destruct y as [sy | sy | | sy my ey]; try discriminate; intros _ _;
    try reflexivity.
  - destruct sx, sy; reflexivity.
  - unfold Binary64.sub, SFsub. apply binary_normalize_not_nan.
Qed.

(** The square of a double that is not a NaN is not a NaN. *)
Lemma binary64_pow_2_not_nan (d : Binary64.double) :
  Binary64.is_nan d = false -> Binary64.is_nan (Binary64.pow_2 d) = false.
Proof.
  destruct d as [s | s | | s m e]; try discriminate; intros _;
    try reflexivity.
  unfold Binary64.pow_2, Binary64.mul, SFmul.
  apply binary_round_aux_not_nan. lia.
Qed.

(** The sum of two doubles that are neither negative nor NaN is not a
    NaN. *)
Lemma binary64_add_not_nan (x y : Binary64.double) :
  Binary64.is_negative x = false -> Binary64.is_nan x = false ->
  Binary64.is_negative y = false -> Binary64.is_nan y = false ->
  Binary64.is_nan (Binary64.add x y) = false.
Proof.
  rewrite !binary64_is_negative_cases.
  destruct x as [sx | sx | | sx mx ex]; try discriminate;
    destruct y as [sy | sy | | sy my ey]; try discriminate;
    try destruct sx; try destruct sy; intros Hx _ Hy _; try discriminate;
    try reflexivity.
  unfold Binary64.add, SFadd. apply binary_normalize_not_nan.
Qed.

Lemma SFdiv_core_binary_nonneg (m1 m2 : positive) (e1 e2 : Z) :
  (0 <= fst (fst (SFdiv_core_binary Binary64.prec Binary64.emax
                    (Zpos m1) e1 (Zpos m2) e2)))%Z.
Proof.
  unfold SFdiv_core_binary.
  set (s := (e1 - e2 - _)%Z).
  set (m' := match s with
             | Z0 => Zpos m1
             | Zpos _ => Z.shiftl (Zpos m1) s
             | Zneg _ => 0%Z
             end).
  assert (Hm' : (0 <= m')%Z).
  { unfold m'. destruct s as [| p | p]; try lia.
    apply Z.shiftl_nonneg. lia. }
  pose proof (Z_div_mod m' (Zpos m2) ltac:(lia)) as Hdiv.
  destruct (Z.div_eucl m' (Zpos m2)) as [q r]. cbn [fst].
  destruct Hdiv as [Heq Hr]. nia.
Qed.

(** Dividing a double that is not a NaN by a positive [int] gives no NaN. *)
Lemma binary64_div_not_nan (x : Binary64.double) (n : Z) :
  (1 <= n < 2 ^ 53)%Z -> Binary64.is_nan x = false ->
  Binary64.is_nan (Binary64.div x (Binary64.of_int n)) = false.
Proof.
  intros Hn Hx. destruct (binary64_of_int_finite n Hn) as [m [e Hfin]].
  rewrite Hfin.
  destruct x as [sx | sx | | sx mx ex]; try discriminate; try reflexivity.
  unfold Binary64.div, SFdiv.
  pose proof (SFdiv_core_binary_nonneg mx m ex e) as Hq.
  destruct (SFdiv_core_binary _ _ _ _ _ _) as [[mz ez] lz]. cbn [fst] in Hq.
  apply binary_round_aux_not_nan. exact Hq.
Qed.

(** [0 <= x] as the C comparison, from the two facts the loop maintains. *)
Lemma binary64_zero_le (x : Binary64.double) :
  Binary64.is_negative x = false -> Binary64.is_nan x = false ->
  SFleb Binary64.zero x = true.
Proof.
  rewrite binary64_is_negative_cases.
  destruct x as [[|] | [|] | | [|] m e]; intros H1 H2; try discriminate;
    reflexivity.
Qed.

(** On finite inputs the loss computed in binary64 is not a NaN. *)
Lemma binary64_get_loss_not_nan (data : Binary64.dataset) (n : Z)
    (coefs : Binary64.ab) :
  Binary64.dataset_of_size data n -> (1 <= n < 2 ^ 31)%Z ->
  Binary64.is_finite (Binary64.a coefs) = true ->
  Binary64.is_finite (Binary64.b coefs) = true ->
  Forall (fun p => Binary64.is_finite (fst p) = true /\
                   Binary64.is_finite (snd p) = true)
         (Binary64.observations data) ->
  exists loss : Binary64.double,
    Binary64.get_loss data n coefs = Ok loss /\
    Binary64.is_nan loss = false.
Proof.
  intros [Hx Hy] Hn Ha Hb Hfinite. unfold Binary64.get_loss.
  match goal with
  | |- context [for_loop 0%Z n ?body ?s0] =>
      destruct (for_loop_invariant
                  (fun _ s => Binary64.is_negative s = false /\
                              Binary64.is_nan s = false)
                  0 n body s0) as [s [Hrun [Hneg Hnan]]]
  end.
  - lia.
  - split; reflexivity.
  - intros i t Hi [Hneg Hnan].
    rewrite !binary64_load_in_bounds by lia. cbn [bind].
    eexists. split; [reflexivity |].
    assert (Hin : In (nth (Z.to_nat i) (Binary64.data_0 data) S754_nan,
                      nth (Z.to_nat i) (Binary64.data_1 data) S754_nan)
                     (Binary64.observations data)).
    { unfold Binary64.observations. rewrite <- combine_nth by lia.
      apply nth_In. rewrite length_combine. lia. }
    rewrite Forall_forall in Hfinite. destruct (Hfinite _ Hin) as [Hfx Hfy].
    cbn [fst snd] in Hfx, Hfy.
    assert (Hsq : Binary64.is_nan
                    (Binary64.pow_2
                       (Binary64.sub
                          (nth (Z.to_nat i) (Binary64.data_1 data) S754_nan)
                          (Binary64.add
                             (Binary64.mul
                                (nth (Z.to_nat i) (Binary64.data_0 data) S754_nan)
                                (Binary64.a coefs))
                             (Binary64.b coefs)))) = false).
    { apply binary64_pow_2_not_nan, binary64_sub_finite; [exact Hfy |].
      apply binary64_add_finite; [| exact Hb].
      apply binary64_mul_finite; assumption. }
    split.
    + apply binary64_add_not_negative;
        [exact Hneg | apply binary64_pow_2_not_negative].
    + apply binary64_add_not_nan;
        [exact Hneg | exact Hnan | apply binary64_pow_2_not_negative | exact Hsq].
  - rewrite Hrun. cbn [bind]. eexists. split; [reflexivity |].
    apply binary64_div_not_nan; [lia | exact Hnan].
Qed.

(** The embedding on the dataset [(1, 3), (2, 5)]: the loss [13 / 2] at the
    coefficients [{1, 0}], and [+0.0] on the line [{2, 1}]. *)
Example binary64_get_loss_example :
  Binary64.get_loss
    (Binary64.mk_dataset [Binary64.of_int 1; Binary64.of_int 2]
                         [Binary64.of_int 3; Binary64.of_int 5]) 2
    (Binary64.mk_ab (Binary64.of_int 1) (Binary64.of_int 0))
  = Ok (Binary64.div (Binary64.of_int 13) (Binary64.of_int 2)).
Proof.
  vm_compute. reflexivity.
Qed.

Example binary64_get_loss_on_the_line_example :
  Binary64.get_loss
    (Binary64.mk_dataset [Binary64.of_int 1; Binary64.of_int 2]
                         [Binary64.of_int 3; Binary64.of_int 5]) 2
    (Binary64.mk_ab (Binary64.of_int 2) (Binary64.of_int 1))
  = Ok Binary64.zero.
Proof.
  vm_compute. reflexivity.
Qed.

(** C5 (as the code has it).  For a dataset of [n >= 1] observations and
    any coefficients, the loss that the code computes in double arithmetic is
    never negative; on finite inputs it satisfies [0 <= loss]; and it is [0]
    when every target is finite and equal to its computed prediction
    [x_i * coefs.a + coefs.b].  Over the real numbers, that is without
    rounding, the loss is non-negative and it is zero exactly when every
    observation satisfies [y_i = coefs.a * x_i + coefs.b]. *)
Theorem get_loss_sign_and_zero :
  (forall (data : Binary64.dataset) (n : Z) (coefs : Binary64.ab),
     Binary64.dataset_of_size data n -> (1 <= n < 2 ^ 31)%Z ->
     exists loss : Binary64.double,
       Binary64.get_loss data n coefs = Ok loss /\
       Binary64.is_negative loss = false /\
       (Binary64.is_finite (Binary64.a coefs) = true ->
        Binary64.is_finite (Binary64.b coefs) = true ->
        Forall (fun p => Binary64.is_finite (fst p) = true /\
                         Binary64.is_finite (snd p) = true)
               (Binary64.observations data) ->
        SFleb Binary64.zero loss = true) /\
       (Forall (fun p => Binary64.is_finite (snd p) = true /\
                         Binary64.on_the_line coefs p = true)
               (Binary64.observations data) ->
        loss = Binary64.zero)) /\
  (forall (data : dataset) (n : Z) (coefs : ab),
     dataset_of_size data n -> (1 <= n)%Z ->
     exists loss : double,
       get_loss data n coefs = Ok loss /\
       0 <= loss /\
       (loss = 0 <->
        Forall (fun p => snd p = a coefs * fst p + b coefs)
               (observations data))).
Proof.
  split.
  - intros data n coefs Hsize Hn.
    destruct (binary64_get_loss_not_negative data n coefs Hsize ltac:(lia))
      as [loss [Hrun Hsign]].
    exists loss. split; [exact Hrun | split; [exact Hsign | split]].
    + intros Ha Hb Hfinite.
      destruct (binary64_get_loss_not_nan data n coefs Hsize Hn Ha Hb Hfinite)
        as [loss' [Hrun' Hnan]].
      rewrite Hrun in Hrun'. injection Hrun' as <-.
      apply binary64_zero_le; assumption.
    + intros Hline.
      pose proof (binary64_get_loss_on_the_line data n coefs Hsize Hn Hline)
        as Hzero.
      rewrite Hrun in Hzero. injection Hzero as Hzero. exact Hzero.
  - intros data n coefs Hsize Hn.
    apply get_loss_sign_over_the_reals; assumption.
Qed.

Lemma get_loss_sign_and_zero_witness :
  Binary64.dataset_of_size
    (Binary64.mk_dataset [Binary64.of_int 1; Binary64.of_int 2]
                         [Binary64.of_int 3; Binary64.of_int 5]) 2 /\
  (1 <= 2 < 2 ^ 31)%Z /\
  (exists loss : Binary64.double,
     Binary64.get_loss
       (Binary64.mk_dataset [Binary64.of_int 1; Binary64.of_int 2]
                            [Binary64.of_int 3; Binary64.of_int 5]) 2
       (Binary64.mk_ab (Binary64.of_int 2) (Binary64.of_int 1)) = Ok loss /\
     Binary64.is_negative loss = false /\
     SFleb Binary64.zero loss = true /\
     loss = Binary64.zero) /\
  dataset_of_size (mk_dataset [1; 2] [3; 5]) 2 /\
  exists loss : double,
    get_loss (mk_dataset [1; 2] [3; 5]) 2 (mk_ab 2 1) = Ok loss /\ 0 <= loss.
Proof.
  assert (Hsize64 : Binary64.dataset_of_size
            (Binary64.mk_dataset [Binary64.of_int 1; Binary64.of_int 2]
                                 [Binary64.of_int 3; Binary64.of_int 5]) 2)
    by (split; reflexivity).
  assert (Hsize : dataset_of_size (mk_dataset [1; 2] [3; 5]) 2)
    by (split; reflexivity).
  assert (Hn64 : (1 <= 2 < 2 ^ 31)%Z) by lia.
  assert (Hn : (1 <= 2)%Z) by lia.
  split; [exact Hsize64 | split; [exact Hn64 | split; [| split; [exact Hsize |]]]].
  - destruct (proj1 get_loss_sign_and_zero _ 2%Z
                (Binary64.mk_ab (Binary64.of_int 2) (Binary64.of_int 1))
                Hsize64 Hn64) as [loss [Hrun [Hsign [Hle Hzero]]]].
    exists loss. split; [exact Hrun | split; [exact Hsign | split]].
    + apply Hle; [reflexivity | reflexivity |]. repeat constructor.
    + apply Hzero. repeat constructor.
  - destruct (proj2 get_loss_sign_and_zero (mk_dataset [1; 2] [3; 5]) 2%Z
                (mk_ab 2 1) Hsize Hn) as [loss [Hrun [Hge _]]].
    exists loss. split; [exact Hrun | exact Hge].
Defined.

(** C5 (as stated) fails: for the single observation [x = 0], [y = 2^-600]
    and the coefficients [{0, 0}] the target differs from the prediction [0],
    yet the square of the residual underflows and the loss is [0].  And a
    target that is a NaN gives a loss that is a NaN, for which [0 <= loss] is
    false. *)
Lemma get_loss_zero_off_the_line :
  Binary64.dataset_of_size
    (Binary64.mk_dataset [Binary64.zero] [Binary64.two_pow (-600)]) 1 /\
  Binary64.get_loss
    (Binary64.mk_dataset [Binary64.zero] [Binary64.two_pow (-600)]) 1
    (Binary64.mk_ab Binary64.zero Binary64.zero) = Ok Binary64.zero /\
  Binary64.on_the_line (Binary64.mk_ab Binary64.zero Binary64.zero)
    (Binary64.zero, Binary64.two_pow (-600)) = false /\
  Binary64.is_finite (Binary64.two_pow (-600)) = true /\
  Binary64.get_loss
    (Binary64.mk_dataset [Binary64.zero] [S754_nan]) 1
    (Binary64.mk_ab Binary64.zero Binary64.zero) = Ok S754_nan /\
  SFleb Binary64.zero S754_nan = false.
Proof.
  split; [split; reflexivity |].
  split; [vm_compute; reflexivity |].
  split; [vm_compute; reflexivity |].
  split; [vm_compute; reflexivity |].
  split; vm_compute; reflexivity.
Qed.

(** ** The optimizer loop *)

Lemma do_step_closed_form (data : dataset) (n : Z) (coefs : ab) (lr : double) :
  dataset_of_size data n -> n <> 0%Z ->
  do_step data n coefs lr = Ok (gradient_update data n lr coefs).
Proof.
  intros Hsize Hn. unfold do_step.
  rewrite (get_loss_gradient_closed_form data n coefs Hsize Hn).
  reflexivity.
Qed.

Lemma main_loop_closed_form (data : dataset) (n : Z) (coefs : ab) (lr : double)
    (k : Z) :
  dataset_of_size data n -> n <> 0%Z -> (0 <= k)%Z ->
  main_loop data n coefs lr k =
  Ok (k, Nat.iter (Z.to_nat k) (gradient_update data n lr) coefs).
Proof.
  intros Hsize Hn Hk. unfold main_loop.
  destruct (for_loop_invariant
              (fun i c => c = Nat.iter (Z.to_nat i) (gradient_update data n lr) coefs)
              0 k (fun _ c => do_step data n c lr) coefs)
    as [c' [Hrun Hinv]].
  - exact Hk.
  - reflexivity.
  - intros i c Hi Hc. exists (gradient_update data n lr c). split.
    + apply do_step_closed_form; assumption.
    + replace (Z.to_nat (i + 1)) with (S (Z.to_nat i)) by lia.
      rewrite Nat.iter_succ, <- Hc. reflexivity.
  - rewrite Hrun, Hinv. reflexivity.
Qed.

Example do_step_example :
  do_step (mk_dataset [1; 2] [3; 5]) 2 (mk_ab 1 0) (1 / 10)
  = Ok (mk_ab (18 / 10) (5 / 10)).
Proof.
  unfold do_step. rewrite get_loss_gradient_example. cbn [bind a b].
  do 2 f_equal; field.
Qed.

(** C3.  For a dataset of [n >= 1] observations, any initial coefficients,
    any learning rate and any step count [k >= 0], the loop ends with its
    counter equal to [k] and with the [k]-fold iterate of the single update
    [(a, b) |-> (a - learningRate * grad.a, b - learningRate * grad.b)],
    where [grad] is what [get_loss_gradient] returns on the whole dataset at
    the current coefficients. *)
Theorem main_loop_iterates (data : dataset) (n : Z) (coefs : ab) (lr : double)
    (k : Z) :
  dataset_of_size data n -> (1 <= n)%Z -> (0 <= k)%Z ->
  main_loop data n coefs lr k =
    Ok (k, Nat.iter (Z.to_nat k) (gradient_update data n lr) coefs) /\
  forall c : ab,
    exists grad : ab,
      get_loss_gradient data n c = Ok grad /\
      do_step data n c lr = Ok (gradient_update data n lr c) /\
      gradient_update data n lr c =
        mk_ab (a c - lr * a grad) (b c - lr * b grad).
Proof.
  intros Hsize Hn Hk.
  assert (Hn0 : n <> 0%Z) by lia.
  split.
  - apply main_loop_closed_form; assumption.
  - intros c. exists (gradient_formula data n c).
    split; [apply get_loss_gradient_closed_form; assumption |].
    split; [apply do_step_closed_form; assumption | reflexivity].
Qed.

Lemma main_loop_iterates_witness :
  dataset_of_size (mk_dataset [1; 2] [3; 5]) 2 /\ (1 <= 2)%Z /\ (0 <= 3)%Z /\
  main_loop (mk_dataset [1; 2] [3; 5]) 2 (mk_ab 1 0) (1 / 10) 3 =
    Ok (3%Z, Nat.iter 3 (gradient_update (mk_dataset [1; 2] [3; 5]) 2 (1 / 10))
                      (mk_ab 1 0)).
Proof.
  assert (Hsize : dataset_of_size (mk_dataset [1; 2] [3; 5]) 2)
    by (split; reflexivity).
  assert (Hn : (1 <= 2)%Z) by lia.
  assert (Hk : (0 <= 3)%Z) by lia.
  split; [exact Hsize | split; [exact Hn | split; [exact Hk |]]].
  exact (proj1 (main_loop_iterates (mk_dataset [1; 2] [3; 5]) 2 (mk_ab 1 0)
                  (1 / 10) 3 Hsize Hn Hk)).
Defined.

(** C6.  With a step count of [0] the loop returns the initial coefficients
    unchanged, for every dataset, every size argument and every learning
    rate. *)
Theorem main_loop_zero_steps (data : dataset) (n : Z) (coefs : ab) (lr : double) :
  main_loop data n coefs lr 0 = Ok (0%Z, coefs).
Proof.
  unfold main_loop. apply for_loop_done. lia.
Qed.

(** ** Division by zero *)

(** A loop fails only with an error of its body. *)
Lemma for_loop_error {St : Type} (lo n : Z) (body : Z -> St -> result St)
    (s : St) (e : error) :
  for_loop lo n body s = Err e ->
  exists i t, (lo <= i < n)%Z /\ body i t = Err e.
Proof.
  remember (Z.to_nat (n - lo)) as k eqn:Hk.
  revert lo s Hk.
  induction k as [| k IH]; intros lo s Hk Hrun.
  - rewrite for_loop_done in Hrun by lia. discriminate.
  - rewrite for_loop_step in Hrun by lia.
    destruct (body lo s) as [t | e'] eqn:Hbody.
    + destruct (IH (lo + 1)%Z t) as [i [u [Hi Hu]]]; [lia | exact Hrun |].
      exists i, u. split; [lia | exact Hu].
    + exists lo, s. split; [lia |]. congruence.
Qed.

Lemma ddiv_division_by_zero (x : double) (n : Z) :
  ddiv x (of_int n) = Err DivisionByZero <-> n = 0%Z.
Proof.
  unfold ddiv, of_int. destruct (Req_dec_T (IZR n) 0) as [Hz | Hnz].
  - split; [intros _; apply eq_IZR_R0; exact Hz | reflexivity].
  - split; [discriminate |]. intros Hn. subst n. exfalso. apply Hnz. reflexivity.
Qed.

Lemma ddiv_error (x : double) (n : Z) (e : error) :
  ddiv x (of_int n) = Err e -> e = DivisionByZero /\ n = 0%Z.
Proof.
  intros Hdiv.
  assert (He : e = DivisionByZero).
  { unfold ddiv in Hdiv. destruct (Req_dec_T (of_int n) 0); congruence. }
  split; [exact He |]. subst e. apply (ddiv_division_by_zero x). exact Hdiv.
Qed.

Lemma ddiv_value (x : double) (n : Z) (v : double) :
  ddiv x (of_int n) = Ok v -> n <> 0%Z.
Proof.
  intros Hdiv Hn. apply (ddiv_division_by_zero x) in Hn. congruence.
Qed.

Lemma get_loss_division_by_zero (data : dataset) (n : Z) (coefs : ab) :
  get_loss data n coefs = Err DivisionByZero <-> n = 0%Z.
Proof.
  unfold get_loss.
  destruct (for_loop 0 n _ 0) as [[i square_sum] | e] eqn:Hloop; cbn [bind].
  - apply ddiv_division_by_zero.
  - split.
    + intros He. injection He as He. subst e. exfalso.
      destruct (for_loop_error _ _ _ _ _ Hloop) as [j [t [_ Hbody]]].
      pose proof (load_never_division_by_zero (data_0 data) j) as H0.
      pose proof (load_never_division_by_zero (data_1 data) j) as H1.
      destruct (load (data_0 data) j) as [x | e0]; cbn [bind] in Hbody;
        [| congruence].
      destruct (load (data_1 data) j) as [y | e1]; cbn [bind] in Hbody;
        [discriminate | congruence].
    + intros Hn. subst n. rewrite for_loop_done in Hloop by lia. discriminate.
Qed.

Lemma get_loss_gradient_division_by_zero (data : dataset) (n : Z) (coefs : ab) :
  get_loss_gradient data n coefs = Err DivisionByZero <-> n = 0%Z.
Proof.
  unfold get_loss_gradient.
  destruct (for_loop 0 n _ (0, 0)) as [[i [a_grad b_grad]] | e] eqn:Hloop;
    cbn [bind].
  - destruct (ddiv (a_grad * 2) (of_int n)) as [grad_a | e] eqn:Ha; cbn [bind].
    + destruct (ddiv (b_grad * 2) (of_int n)) as [grad_b | e] eqn:Hb; cbn [bind].
      * split; [discriminate |]. intros Hn.
        exfalso. exact (ddiv_value _ _ _ Ha Hn).
      * destruct (ddiv_error _ _ _ Hb) as [He Hn]. subst e.
        split; [intros _; exact Hn | reflexivity].
    + destruct (ddiv_error _ _ _ Ha) as [He Hn]. subst e.
      split; [intros _; exact Hn | reflexivity].
  - split.
    + intros He. injection He as He. subst e. exfalso.
      destruct (for_loop_error _ _ _ _ _ Hloop) as [j [[ag bg] [_ Hbody]]].
      pose proof (load_never_division_by_zero (data_0 data) j) as H0.
      pose proof (load_never_division_by_zero (data_1 data) j) as H1.
      destruct (load (data_0 data) j) as [x | e0]; cbn [bind] in Hbody;
        [| congruence].
      destruct (load (data_1 data) j) as [y | e1]; cbn [bind] in Hbody;
        [discriminate | congruence].
    + intros Hn. subst n. rewrite for_loop_done in Hloop by lia. discriminate.
Qed.

(** C8.  The only division of [get_loss] and the two divisions of
    [get_loss_gradient] are by [n]: either function stops with
    [DivisionByZero] exactly when [n = 0], and on a dataset of [n >= 1]
    observations both return a value. *)
Theorem division_by_zero_only_when_empty (data : dataset) (n : Z) (coefs : ab) :
  (get_loss data n coefs = Err DivisionByZero <-> n = 0%Z) /\
  (get_loss_gradient data n coefs = Err DivisionByZero <-> n = 0%Z) /\
  (dataset_of_size data n -> (1 <= n)%Z ->
   exists (square_sum a_grad b_grad : double),
     get_loss data n coefs = Ok (square_sum / of_int n) /\
     get_loss_gradient data n coefs =
       Ok (mk_ab ((a_grad * 2) / of_int n) ((b_grad * 2) / of_int n))).
Proof.
  split; [apply get_loss_division_by_zero |].
  split; [apply get_loss_gradient_division_by_zero |].
  intros Hsize Hn.
  exists (Rsum (map (fun p => (residual coefs p) ^ 2) (observations data))),
         (Rsum (map (fun p => - fst p * residual coefs p) (observations data))),
         (Rsum (map (fun p => - residual coefs p) (observations data))).
  split.
  - rewrite (get_loss_closed_form data n coefs Hsize) by lia.
    unfold mean_squared_error, of_int. f_equal. unfold Rdiv. ring.
  - rewrite (get_loss_gradient_closed_form data n coefs Hsize) by lia.
    unfold gradient_formula, of_int. do 2 f_equal; unfold Rdiv; ring.
Qed.

Lemma division_by_zero_only_when_empty_witness :
  dataset_of_size (mk_dataset [1; 2] [3; 5]) 2 /\ (1 <= 2)%Z /\
  get_loss (mk_dataset [1; 2] [3; 5]) 2 (mk_ab 2 1) <> Err DivisionByZero /\
  get_loss (mk_dataset [] []) 0 (mk_ab 2 1) = Err DivisionByZero /\
  exists (square_sum a_grad b_grad : double),
    get_loss (mk_dataset [1; 2] [3; 5]) 2 (mk_ab 2 1) =
      Ok (square_sum / of_int 2) /\
    get_loss_gradient (mk_dataset [1; 2] [3; 5]) 2 (mk_ab 2 1) =
      Ok (mk_ab ((a_grad * 2) / of_int 2) ((b_grad * 2) / of_int 2)).
Proof.
  assert (Hsize : dataset_of_size (mk_dataset [1; 2] [3; 5]) 2)
    by (split; reflexivity).
  assert (Hn : (1 <= 2)%Z) by lia.
  split; [exact Hsize | split; [exact Hn |]].
  split.
  - intros Hdiv.
    apply (proj1 (division_by_zero_only_when_empty
                    (mk_dataset [1; 2] [3; 5]) 2 (mk_ab 2 1))) in Hdiv.
    discriminate.
  - split.
    + apply (proj1 (division_by_zero_only_when_empty
                      (mk_dataset [] []) 0 (mk_ab 2 1))).
      reflexivity.
    + exact (proj2 (proj2 (division_by_zero_only_when_empty
                             (mk_dataset [1; 2] [3; 5]) 2 (mk_ab 2 1)))
               Hsize Hn).
Defined.

(** ** The data generator *)

Lemma after_draws_zero (w : world) : after_draws w 0 = w.
Proof.
  destruct w as [g p cg cp out hs]. unfold after_draws. simpl.
  rewrite Nat.add_0_r. reflexivity.
Qed.

Lemma get_random_number_draw (RAND_MAX : Z) (upper_bound : Z) (w : world)
    (k : nat) :
  RAND_MAX <> 0%Z ->
  get_random_number RAND_MAX upper_bound (after_draws w k) =
  Ok (random_draw RAND_MAX w k upper_bound, after_draws w (S k)).
Proof.
  intros Hmax. unfold get_random_number, rand. cbn [bind].
  rewrite ddiv_ok by (apply of_int_nonzero; exact Hmax). cbn [bind].
  unfold random_draw, after_draws, of_int. simpl.
  rewrite Nat.add_succ_r. reflexivity.
Qed.

Example get_random_number_example :
  get_random_number 32 20 (constant_world 16 0)
  = Ok (10, after_draws (constant_world 16 0) 1).
Proof.
  rewrite <- (after_draws_zero (constant_world 16 0)) at 1.
  rewrite get_random_number_draw by lia.
  unfold random_draw. simpl. do 2 f_equal. field.
Qed.

(** A draw lies between [0] and the bound, both included. *)
Lemma random_draw_bounds (RAND_MAX : Z) (w : world) (k : nat) (upper_bound : Z) :
  (0 < RAND_MAX)%Z -> rand_in_range RAND_MAX w -> (0 <= upper_bound)%Z ->
  0 <= random_draw RAND_MAX w k upper_bound <= IZR upper_bound.
Proof.
  intros Hmax Hrange Hub. unfold random_draw.
  destruct (Hrange (rand_pos w + k)%nat) as [Hlo Hhi].
  apply IZR_le in Hlo, Hhi, Hub. apply IZR_lt in Hmax.
  set (r := IZR (rand_gen w (rand_pos w + k))) in *.
  assert (Hq : 0 <= r / IZR RAND_MAX <= 1).
  { split.
    - apply Rmult_le_pos; [exact Hlo |].
      apply Rlt_le, Rinv_0_lt_compat. exact Hmax.
    - apply (Rmult_le_reg_r (IZR RAND_MAX)); [exact Hmax |].
      unfold Rdiv. rewrite Rmult_assoc, Rinv_l by lra. lra. }
  split; [apply Rmult_le_pos; lra | nra].
Qed.

(** What [get_random_data] returns: [2 * n] values of [rand()] are consumed,
    the [j]-th observation is made of the draws [2 * j] and [2 * j + 1]. *)
Lemma get_random_data_draws (RAND_MAX : Z) (n : Z) (true_coefs : ab)
    (x_ub noise_ub : Z) (w : world) :
  RAND_MAX <> 0%Z -> (0 <= n)%Z ->
  exists data : dataset,
    get_random_data RAND_MAX n true_coefs x_ub noise_ub w =
      Ok (data, after_draws w (2 * Z.to_nat n)) /\
    dataset_of_size data n /\
    forall j : nat, (j < Z.to_nat n)%nat ->
      nth j (data_0 data) 0 = random_draw RAND_MAX w (2 * j) x_ub /\
      nth j (data_1 data) 0 =
        (a true_coefs * random_draw RAND_MAX w (2 * j) x_ub + b true_coefs)
        + random_draw RAND_MAX w (2 * j + 1) noise_ub.
Proof.
  intros Hmax Hn. unfold get_random_data.
  set (Inv := fun (i : Z) (s : array * array * world) =>
    let '(x, y, w') := s in
    length x = Z.to_nat n /\ length y = Z.to_nat n /\
    w' = after_draws w (2 * Z.to_nat i) /\
    forall j : nat, (j < Z.to_nat i)%nat ->
      nth j x 0 = random_draw RAND_MAX w (2 * j) x_ub /\
      nth j y 0 =
        (a true_coefs * random_draw RAND_MAX w (2 * j) x_ub + b true_coefs)
        + random_draw RAND_MAX w (2 * j + 1) noise_ub).
  match goal with
  | |- context [for_loop 0%Z n ?body ?s0] =>
      destruct (for_loop_invariant Inv 0 n body s0) as [[[x y] w'] [Hrun Hinv]]
  end.
  - exact Hn.
  - unfold Inv, malloc_doubles. rewrite !repeat_length.
    split; [reflexivity | split; [reflexivity | split]].
    + simpl. symmetry. apply after_draws_zero.
    + intros j Hj. simpl in Hj. lia.
  - intros i [[x y] w'] Hi (Hx & Hy & Hw & Hdone). subst w'.
    rewrite get_random_number_draw by exact Hmax. cbn [bind].
    rewrite store_in_bounds by lia. cbn [bind].
    rewrite load_in_bounds by (rewrite update_length; lia). cbn [bind].
    rewrite nth_update_same by lia.
    rewrite get_random_number_draw by exact Hmax. cbn [bind].
    rewrite store_in_bounds by lia. cbn [bind].
    eexists. split; [reflexivity |].
    unfold Inv. rewrite !update_length.
    split; [exact Hx | split; [exact Hy | split]].
    + f_equal. lia.
    + intros j Hj.
      replace (2 * Z.to_nat i + 1)%nat with (S (2 * Z.to_nat i)) by lia.
      destruct (Nat.eq_dec j (Z.to_nat i)) as [-> | Hne].
      * rewrite !nth_update_same by lia.
        replace (2 * Z.to_nat i + 1)%nat with (S (2 * Z.to_nat i)) by lia.
        split; reflexivity.
      * rewrite !nth_update_other by exact Hne. apply Hdone. lia.
  - destruct Hinv as (Hx & Hy & Hw & Hdone). subst w'.
    exists (mk_dataset x y). rewrite Hrun. cbn [bind].
    split; [reflexivity |].
    split; [split; simpl; lia | exact Hdone].
Qed.

(** C4 (as the code has it).  For [n >= 1], positive bounds and a [rand()]
    whose values lie between [0] and [RAND_MAX], every observation that
    [get_random_data] produces satisfies [y = trueCoefs.a * x + trueCoefs.b + e]
    with [x] in the closed interval [[0, xUpperBound]] and [e] in the closed
    interval [[0, noiseUpperBound]]. *)
Theorem get_random_data_closed_intervals (RAND_MAX : Z) (n : Z)
    (true_coefs : ab) (x_ub noise_ub : Z) (w : world) :
  (32767 <= RAND_MAX)%Z -> rand_in_range RAND_MAX w ->
  (1 <= n)%Z -> (0 < x_ub)%Z -> (0 < noise_ub)%Z ->
  exists (data : dataset) (w' : world),
    get_random_data RAND_MAX n true_coefs x_ub noise_ub w = Ok (data, w') /\
    dataset_of_size data n /\
    Forall (fun p =>
              exists e : R,
                0 <= fst p <= IZR x_ub /\ 0 <= e <= IZR noise_ub /\
                snd p = a true_coefs * fst p + b true_coefs + e)
           (observations data).
Proof.
  intros Hmax Hrange Hn Hx Hnoise.
  destruct (get_random_data_draws RAND_MAX n true_coefs x_ub noise_ub w)
    as [data [Hrun [Hsize Hdraws]]]; [lia | lia |].
  exists data, (after_draws w (2 * Z.to_nat n)).
  split; [exact Hrun | split; [exact Hsize |]].
  pose proof (observations_length data n Hsize) as Hlen.
  apply Forall_nth. intros j d Hj.
  rewrite (nth_indep _ d (0, 0)) by exact Hj.
  rewrite (observations_nth data n j Hsize). cbn [fst snd].
  destruct (Hdraws j) as [Hxj Hyj]; [lia |].
  exists (random_draw RAND_MAX w (2 * j + 1) noise_ub).
  rewrite Hxj, Hyj.
  split; [apply random_draw_bounds; [lia | exact Hrange | lia] |].
  split; [apply random_draw_bounds; [lia | exact Hrange | lia] | reflexivity].
Qed.

Lemma get_random_data_closed_intervals_witness :
  (32767 <= 32767)%Z /\ rand_in_range 32767 (constant_world 0 0) /\
  (1 <= 2)%Z /\ (0 < 20)%Z /\ (0 < 1)%Z /\
  exists (data : dataset) (w' : world),
    get_random_data 32767 2 (mk_ab 4 2) 20 1 (constant_world 0 0) =
      Ok (data, w') /\
    dataset_of_size data 2.
Proof.
  assert (Hrange : rand_in_range 32767 (constant_world 0 0))
    by (intros k; simpl; lia).
  split; [lia | split; [exact Hrange |]].
  split; [lia | split; [lia | split; [lia |]]].
  destruct (get_random_data_closed_intervals 32767 2 (mk_ab 4 2) 20 1
              (constant_world 0 0))
    as [data [w' [Hrun [Hsize _]]]]; try lia; try exact Hrange.
  exists data, w'. split; [exact Hrun | exact Hsize].
Defined.

Lemma singleton_buffer (p : array) :
  length p = 1%nat -> p = [nth 0 p 0].
Proof.
  destruct p as [| v [| u q]]; simpl; intros Hlen; try discriminate.
  reflexivity.
Qed.

(** C4 (as stated) fails: when [rand()] returns [RAND_MAX], the generated [x]
    is the upper bound [20] itself and the noise is the upper bound [1]
    itself, so the observation does not have [x] in [[0, 20)] and noise in
    [[0, 1)]. *)
Lemma get_random_data_reaches_upper_bounds :
  rand_in_range 32767 (constant_world 32767 0) /\
  get_random_data 32767 1 (mk_ab 4 2) 20 1 (constant_world 32767 0) =
    Ok (mk_dataset [20] [4 * 20 + 2 + 1],
        after_draws (constant_world 32767 0) 2) /\
  ~ (exists (data : dataset) (w' : world),
       get_random_data 32767 1 (mk_ab 4 2) 20 1 (constant_world 32767 0) =
         Ok (data, w') /\
       Forall (fun p =>
                 exists e : R,
                   0 <= fst p < IZR 20 /\ 0 <= e < IZR 1 /\
                   snd p = a (mk_ab 4 2) * fst p + b (mk_ab 4 2) + e)
              (observations data)).
Proof.
  assert (Hrun : get_random_data 32767 1 (mk_ab 4 2) 20 1
                   (constant_world 32767 0) =
                 Ok (mk_dataset [20] [4 * 20 + 2 + 1],
                     after_draws (constant_world 32767 0) 2)).
  { destruct (get_random_data_draws 32767 1 (mk_ab 4 2) 20 1
                (constant_world 32767 0))
      as [[xs ys] [Hrun [[Hxs Hys] Hdraws]]]; [lia | lia |].
    rewrite Hrun. simpl in Hxs, Hys.
    destruct (Hdraws 0%nat) as [Hx Hy]; [simpl; lia |].
    simpl in Hx, Hy. unfold random_draw in Hx, Hy. simpl in Hx, Hy.
    rewrite (singleton_buffer xs) by lia.
    rewrite (singleton_buffer ys) by lia.
    rewrite Hx, Hy. do 3 f_equal.
    - f_equal. field.
    - f_equal. field. }
  split; [intros k; simpl; lia |].
  split; [exact Hrun |].
  intros [data [w' [Hrun' Hall]]].
  rewrite Hrun in Hrun'. injection Hrun' as Hdata _. subst data.
  unfold observations in Hall. simpl in Hall.
  inversion Hall as [| p l [e [[_ Hx] _]] _]. simpl in Hx. lra.
Qed.

(** ** The whole program *)

(** A complete run of [main]: the dataset is generated from [2 * DATA_SIZE]
    values of [rand()], the loop runs from [{1, 0}], the clock is read
    twice and five lines are printed. *)
Lemma main_run (RAND_MAX CLOCKS_PER_SEC : Z) (w : world) :
  RAND_MAX <> 0%Z -> CLOCKS_PER_SEC <> 0%Z ->
  exists (data : dataset) (coefs : ab),
    get_random_data RAND_MAX DATA_SIZE (mk_ab (of_int TRUE_A) (of_int TRUE_B))
                    X_UB NOISE_UB w =
      Ok (data, after_draws w (2 * Z.to_nat DATA_SIZE)) /\
    dataset_of_size data DATA_SIZE /\
    main_loop data DATA_SIZE (mk_ab 1 0) LEARNING_RATE STEPS = Ok (STEPS, coefs) /\
    coefs = Nat.iter (Z.to_nat STEPS)
                     (gradient_update data DATA_SIZE LEARNING_RATE) (mk_ab 1 0) /\
    main RAND_MAX CLOCKS_PER_SEC w =
      Ok (tt,
          mk_world (rand_gen w) (rand_pos w + 2 * Z.to_nat DATA_SIZE)
            (clock_gen w) (S (S (clock_pos w)))
            (OutElapsed
               (of_int (clock_gen w (S (clock_pos w)) - clock_gen w (clock_pos w))
                / of_int CLOCKS_PER_SEC)
             :: OutEstimated (a coefs) (b coefs)
             :: OutFinished STEPS (mean_squared_error data DATA_SIZE coefs)
             :: OutDatasetSize DATA_SIZE
             :: OutComputing
             :: stdout w)
            (host_status w)).
Proof.
  intros Hmax Hclock.
  assert (Hsize0 : DATA_SIZE <> 0%Z) by (unfold DATA_SIZE; lia).
  destruct (get_random_data_draws RAND_MAX DATA_SIZE
              (mk_ab (of_int TRUE_A) (of_int TRUE_B)) X_UB NOISE_UB w)
    as [data [Hgen [Hsize _]]]; [exact Hmax | unfold DATA_SIZE; lia |].
  pose proof (main_loop_closed_form data DATA_SIZE (mk_ab 1 0) LEARNING_RATE
                STEPS Hsize Hsize0) as Hloop.
  specialize (Hloop ltac:(unfold STEPS; lia)).
  exists data, (Nat.iter (Z.to_nat STEPS)
                         (gradient_update data DATA_SIZE LEARNING_RATE) (mk_ab 1 0)).
  split; [exact Hgen |].
  split; [exact Hsize |].
  split; [exact Hloop |].
  split; [reflexivity |].
  revert Hgen Hloop.
  generalize (Nat.iter (Z.to_nat STEPS)
                (gradient_update data DATA_SIZE LEARNING_RATE) (mk_ab 1 0)).
  intros coefs Hgen Hloop.
  pose proof (get_loss_closed_form data DATA_SIZE coefs Hsize Hsize0) as Hloss.
  pose proof (ddiv_ok (of_int (clock_gen w (S (clock_pos w))
                               - clock_gen w (clock_pos w)))
                (of_int CLOCKS_PER_SEC) (of_int_nonzero _ Hclock)) as Hdiv.
  unfold main, bind, printf, clock. rewrite Hgen, Hloop.
  unfold after_draws.
  cbn [clock_gen clock_pos rand_gen rand_pos stdout host_status].
  rewrite Hdiv, Hloss. reflexivity.
Qed.

(** C9 (as the code has it).  Every run of [main] reaches the end of [main]:
    no access is out of bounds, no division is by zero and nothing stops the
    program before.  [main] returns no value, so the termination status is
    the one the host assigns. *)
Theorem main_reaches_its_end (RAND_MAX CLOCKS_PER_SEC : Z) (w : world) :
  (32767 <= RAND_MAX)%Z -> (0 < CLOCKS_PER_SEC)%Z ->
  (exists w' : world, main RAND_MAX CLOCKS_PER_SEC w = Ok (tt, w')) /\
  exit_status (main RAND_MAX CLOCKS_PER_SEC w) = Some (host_status w).
Proof.
  intros Hmax Hclock.
  destruct (main_run RAND_MAX CLOCKS_PER_SEC w)
    as [data [coefs [_ [_ [_ [_ Hmain]]]]]]; [lia | lia |].
  rewrite Hmain. split; [eexists; reflexivity | reflexivity].
Qed.

Lemma main_reaches_its_end_witness :
  (32767 <= 32767)%Z /\ (0 < 1000000)%Z /\
  (exists w' : world, main 32767 1000000 (constant_world 0 0) = Ok (tt, w')) /\
  exit_status (main 32767 1000000 (constant_world 0 0)) = Some 0%Z.
Proof.
  assert (Hmax : (32767 <= 32767)%Z) by lia.
  assert (Hclock : (0 < 1000000)%Z) by lia.
  split; [exact Hmax | split; [exact Hclock |]].
  exact (main_reaches_its_end 32767 1000000 (constant_world 0 0) Hmax Hclock).
Defined.

(** C9 (as stated) fails: in a host that reports the status [1] for a [main]
    that returns no value, the run ends with a non-zero status. *)
Lemma main_exit_status_not_zero :
  exit_status (main 32767 1000000 (constant_world 0 1)) = Some 1%Z /\
  exit_status (main 32767 1000000 (constant_world 0 1)) <> Some 0%Z.
Proof.
  destruct (main_run 32767 1000000 (constant_world 0 1))
    as [data [coefs [_ [_ [_ [_ Hmain]]]]]]; [lia | lia |].
  rewrite Hmain. split; [reflexivity | discriminate].
Qed.

(** C10.  Every run of [main] starts the descent from [a = 1], [b = 0]: the
    coefficients it prints are those the loop returns when started from
    [{1, 0}] on the generated dataset, and [{1, 0}] is neither the pair of
    true coefficients nor [{0, 0}]. *)
Theorem main_starts_from_one_zero (RAND_MAX CLOCKS_PER_SEC : Z) (w : world) :
  (32767 <= RAND_MAX)%Z -> (0 < CLOCKS_PER_SEC)%Z ->
  exists (data : dataset) (w1 : world) (coefs : ab) (seconds loss : double),
    get_random_data RAND_MAX DATA_SIZE (mk_ab (of_int TRUE_A) (of_int TRUE_B))
                    X_UB NOISE_UB w = Ok (data, w1) /\
    main_loop data DATA_SIZE (mk_ab 1 0) LEARNING_RATE STEPS = Ok (STEPS, coefs) /\
    coefs = Nat.iter (Z.to_nat STEPS)
                     (gradient_update data DATA_SIZE LEARNING_RATE) (mk_ab 1 0) /\
    printed (main RAND_MAX CLOCKS_PER_SEC w) =
      OutElapsed seconds :: OutEstimated (a coefs) (b coefs)
      :: OutFinished STEPS loss :: OutDatasetSize DATA_SIZE :: OutComputing
      :: stdout w /\
    mk_ab 1 0 <> mk_ab (of_int TRUE_A) (of_int TRUE_B) /\
    mk_ab 1 0 <> mk_ab 0 0.
Proof.
  intros Hmax Hclock.
  destruct (main_run RAND_MAX CLOCKS_PER_SEC w)
    as [data [coefs [Hgen [_ [Hloop [Hiter Hmain]]]]]]; [lia | lia |].
  exists data, (after_draws w (2 * Z.to_nat DATA_SIZE)), coefs.
  eexists. eexists.
  split; [exact Hgen |].
  split; [exact Hloop |].
  split; [exact Hiter |].
  split; [rewrite Hmain; reflexivity |].
  split.
  - intros Heq. injection Heq as Ha _. unfold of_int, TRUE_A in Ha. lra.
  - intros Heq. injection Heq as Ha. lra.
Qed.

Lemma main_starts_from_one_zero_witness :
  (32767 <= 32767)%Z /\ (0 < 1000000)%Z /\
  exists (data : dataset) (coefs : ab),
    main_loop data DATA_SIZE (mk_ab 1 0) LEARNING_RATE STEPS = Ok (STEPS, coefs) /\
    In (OutEstimated (a coefs) (b coefs))
       (printed (main 32767 1000000 (constant_world 0 0))).
Proof.
  assert (Hmax : (32767 <= 32767)%Z) by lia.
  assert (Hclock : (0 < 1000000)%Z) by lia.
  split; [exact Hmax | split; [exact Hclock |]].
  destruct (main_starts_from_one_zero 32767 1000000 (constant_world 0 0)
              Hmax Hclock)
    as [data [w1 [coefs [seconds [loss [_ [Hloop [_ [Hout _]]]]]]]]].
  exists data, coefs. split; [exact Hloop |].
  rewrite Hout. right. left. reflexivity.
Defined.

(** * Further properties of the code *)

(** ** More on loops *)

(** Bodies that agree on the range of the counter give the same loop. *)
Lemma for_loop_ext_range {St : Type} (lo n : Z)
    (body1 body2 : Z -> St -> result St) (s : St) :
  (forall i t, (lo <= i < n)%Z -> body1 i t = body2 i t) ->
  for_loop lo n body1 s = for_loop lo n body2 s.
Proof.
  intros Hext.
  remember (Z.to_nat (n - lo)) as k eqn:Hk.
  revert lo s Hk Hext.
  induction k as [| k IH]; intros lo s Hk Hext.
  - rewrite !for_loop_done by lia. reflexivity.
  - rewrite !for_loop_step by lia. rewrite Hext by lia.
    destruct (body2 lo s) as [t | e]; [| reflexivity].
    apply IH; [lia |]. intros i u Hi. apply Hext. lia.
Qed.

(** A loop that ends has run its body, with success, at every value of the
    counter. *)
Lemma for_loop_ok_bodies {St : Type} (lo n : Z) (body : Z -> St -> result St)
    (s : St) (r : Z * St) :
  for_loop lo n body s = Ok r ->
  forall i, (lo <= i < n)%Z -> exists t t', body i t = Ok t'.
Proof.
  remember (Z.to_nat (n - lo)) as k eqn:Hk.
  revert lo s Hk.
  induction k as [| k IH]; intros lo s Hk Hrun i Hi; [lia |].
  rewrite for_loop_step in Hrun by lia.
  destruct (body lo s) as [t | e] eqn:Hbody; [| discriminate].
  destruct (Z.eq_dec i lo) as [-> | Hne].
  - exists s, t. exact Hbody.
  - apply (IH (lo + 1)%Z t); [lia | exact Hrun | lia].
Qed.

(** A loop can be cut at any point of its range. *)
Lemma for_loop_split {St : Type} (lo mid n : Z) (body : Z -> St -> result St)
    (s : St) :
  (lo <= mid <= n)%Z ->
  for_loop lo n body s =
  match for_loop lo mid body s with
  | Ok (_, s') => for_loop mid n body s'
  | Err e => Err e
  end.
Proof.
  remember (Z.to_nat (mid - lo)) as k eqn:Hk.
  revert lo s Hk.
  induction k as [| k IH]; intros lo s Hk Hrange.
  - assert (lo = mid) by lia. subst lo.
    rewrite (for_loop_done mid mid) by lia. reflexivity.
  - rewrite (for_loop_step lo n) by lia. rewrite (for_loop_step lo mid) by lia.
    destruct (body lo s) as [t | e]; [| reflexivity].
    apply IH; lia.
Qed.

(** When the body does not read the counter, only the number of iterations
    matters. *)
Lemma for_loop_shift {St : Type} (lo n d : Z) (f : St -> result St) (s : St) :
  for_loop (lo + d) (n + d) (fun _ => f) s =
  match for_loop lo n (fun _ => f) s with
  | Ok (i, s') => Ok ((i + d)%Z, s')
  | Err e => Err e
  end.
Proof.
  remember (Z.to_nat (n - lo)) as k eqn:Hk.
  revert lo s Hk.
  induction k as [| k IH]; intros lo s Hk.
  - rewrite !for_loop_done by lia. reflexivity.
  - rewrite (for_loop_step (lo + d)) by lia. rewrite (for_loop_step lo) by lia.
    destruct (f s) as [t | e]; [| reflexivity].
    replace (lo + d + 1)%Z with (lo + 1 + d)%Z by lia.
    apply IH. lia.
Qed.

Lemma load_ok_in_bounds (p : array) (i : Z) (v : double) :
  load p i = Ok v -> (0 <= i < Z.of_nat (length p))%Z.
Proof.
  unfold load. destruct (Z.ltb_spec i 0) as [Hneg | Hpos]; [discriminate |].
  destruct (nth_error p (Z.to_nat i)) as [u |] eqn:Hnth; [| discriminate].
  intros _. assert (Hsome : nth_error p (Z.to_nat i) <> None) by congruence.
  apply nth_error_Some in Hsome. lia.
Qed.

Lemma load_firstn (p : array) (k : nat) (i : Z) :
  (i < Z.of_nat k)%Z -> load (firstn k p) i = load p i.
Proof.
  intros Hi. unfold load. destruct (Z.ltb_spec i 0) as [Hneg | Hpos];
    [reflexivity |].
  rewrite nth_error_firstn.
  destruct (Nat.ltb_spec (Z.to_nat i) k) as [_ | Hge]; [reflexivity | lia].
Qed.

(** ** Reads of the dataset *)

Lemma load_error_short (p : array) (i : Z) (e : error) :
  (0 <= i)%Z -> load p i = Err e -> (Z.of_nat (length p) <= i)%Z.
Proof.
  intros Hi Hload.
  destruct (Z_lt_dec i (Z.of_nat (length p))) as [Hlt | Hge]; [| lia].
  rewrite load_in_bounds in Hload by lia. discriminate.
Qed.

Lemma get_loss_out_of_bounds (data : dataset) (n : Z) (coefs : ab) :
  get_loss data n coefs = Err OutOfBounds <->
  (0 < n)%Z /\
  (Z.of_nat (length (data_0 data)) < n \/ Z.of_nat (length (data_1 data)) < n)%Z.
Proof.
  split.
  - unfold get_loss.
    destruct (for_loop 0 n _ 0) as [[i square_sum] | e] eqn:Hloop; cbn [bind].
    + unfold ddiv. destruct (Req_dec_T (of_int n) 0); discriminate.
    + intros He. injection He as He. subst e.
      destruct (for_loop_error _ _ _ _ _ Hloop) as [j [t [Hj Hbody]]].
      split; [lia |].
      destruct (load (data_0 data) j) as [x | e0] eqn:Hx; cbn [bind] in Hbody.
      * destruct (load (data_1 data) j) as [y | e1] eqn:Hy; cbn [bind] in Hbody;
          [discriminate |].
        right. apply load_error_short in Hy; lia.
      * left. apply load_error_short in Hx; lia.
  - intros [Hn Hshort].
    destruct (get_loss data n coefs) as [v | [|]] eqn:Hrun; [| reflexivity |].
    + exfalso. unfold get_loss in Hrun.
      destruct (for_loop 0 n _ 0) as [r | e] eqn:Hloop; [| discriminate].
      destruct (for_loop_ok_bodies _ _ _ _ _ Hloop (n - 1)%Z) as [t [t' Hbody]];
        [lia |].
      destruct (load (data_0 data) (n - 1)) as [x | e0] eqn:Hx;
        cbn [bind] in Hbody; [| discriminate].
      destruct (load (data_1 data) (n - 1)) as [y | e1] eqn:Hy;
        cbn [bind] in Hbody; [| discriminate].
      apply load_ok_in_bounds in Hx, Hy. lia.
    + exfalso. apply get_loss_division_by_zero in Hrun. lia.
Qed.

Lemma get_loss_gradient_out_of_bounds (data : dataset) (n : Z) (coefs : ab) :
  get_loss_gradient data n coefs = Err OutOfBounds <->
  (0 < n)%Z /\
  (Z.of_nat (length (data_0 data)) < n \/ Z.of_nat (length (data_1 data)) < n)%Z.
Proof.
  split.
  - unfold get_loss_gradient.
    destruct (for_loop 0 n _ (0, 0)) as [[i [a_grad b_grad]] | e] eqn:Hloop;
      cbn [bind].
    + unfold ddiv. destruct (Req_dec_T (of_int n) 0); cbn [bind]; discriminate.
    + intros He. injection He as He. subst e.
      destruct (for_loop_error _ _ _ _ _ Hloop) as [j [[ag bg] [Hj Hbody]]].
      split; [lia |].
      destruct (load (data_0 data) j) as [x | e0] eqn:Hx; cbn [bind] in Hbody.
      * destruct (load (data_1 data) j) as [y | e1] eqn:Hy; cbn [bind] in Hbody;
          [discriminate |].
        right. apply load_error_short in Hy; lia.
      * left. apply load_error_short in Hx; lia.
  - intros [Hn Hshort].
    destruct (get_loss_gradient data n coefs) as [v | [|]] eqn:Hrun;
      [| reflexivity |].
    + exfalso. unfold get_loss_gradient in Hrun.
      destruct (for_loop 0 n _ (0, 0)) as [r | e] eqn:Hloop; [| discriminate].
      destruct (for_loop_ok_bodies _ _ _ _ _ Hloop (n - 1)%Z)
        as [[ag bg] [t' Hbody]]; [lia |].
      destruct (load (data_0 data) (n - 1)) as [x | e0] eqn:Hx;
        cbn [bind] in Hbody; [| discriminate].
      destruct (load (data_1 data) (n - 1)) as [y | e1] eqn:Hy;
        cbn [bind] in Hbody; [| discriminate].
      apply load_ok_in_bounds in Hx, Hy. lia.
    + exfalso. apply get_loss_gradient_division_by_zero in Hrun. lia.
Qed.

(** X1.  [get_loss] and [get_loss_gradient] read the cells [0 .. n-1] of both
    buffers: each stops with [OutOfBounds] exactly when [n > 0] and one of the
    buffers has fewer than [n] cells, and [do_step] fails in the same case. *)
Theorem reads_need_n_cells (data : dataset) (n : Z) (coefs : ab) (lr : double) :
  let short :=
    ((0 < n)%Z /\
     (Z.of_nat (length (data_0 data)) < n \/
      Z.of_nat (length (data_1 data)) < n)%Z) in
  (get_loss data n coefs = Err OutOfBounds <-> short) /\
  (get_loss_gradient data n coefs = Err OutOfBounds <-> short) /\
  (do_step data n coefs lr = Err OutOfBounds <-> short).
Proof.
  cbv zeta.
  split; [apply get_loss_out_of_bounds |].
  split; [apply get_loss_gradient_out_of_bounds |].
  rewrite <- get_loss_gradient_out_of_bounds with (coefs := coefs).
  unfold do_step.
  destruct (get_loss_gradient data n coefs) as [grad | e]; cbn [bind].
  - split; discriminate.
  - reflexivity.
Qed.

Lemma reads_need_n_cells_witness :
  get_loss (mk_dataset [1] [3; 5]) 2 (mk_ab 1 0) = Err OutOfBounds /\
  do_step (mk_dataset [1; 2] [3; 5]) 2 (mk_ab 1 0) (1 / 10) <> Err OutOfBounds.
Proof.
  split.
  - apply (proj1 (reads_need_n_cells (mk_dataset [1] [3; 5]) 2 (mk_ab 1 0) 0)).
    simpl. lia.
  - intros Herr.
    apply (proj2 (proj2 (reads_need_n_cells (mk_dataset [1; 2] [3; 5]) 2
                           (mk_ab 1 0) (1 / 10)))) in Herr.
    simpl in Herr. lia.
Defined.

(** The dataset reduced to its first [n] observations. *)
Lemma prefix_dataset_of_size (data : dataset) (n : Z) :
  (0 <= n)%Z ->
  (n <= Z.of_nat (length (data_0 data)))%Z ->
  (n <= Z.of_nat (length (data_1 data)))%Z ->
  dataset_of_size (mk_dataset (firstn (Z.to_nat n) (data_0 data))
                              (firstn (Z.to_nat n) (data_1 data))) n.
Proof.
  intros Hn Hx Hy. split; cbn [data_0 data_1]; rewrite length_firstn; lia.
Qed.

Lemma get_loss_prefix (data : dataset) (n : Z) (coefs : ab) :
  get_loss data n coefs =
  get_loss (mk_dataset (firstn (Z.to_nat n) (data_0 data))
                       (firstn (Z.to_nat n) (data_1 data))) n coefs.
Proof.
  unfold get_loss. f_equal. apply for_loop_ext_range.
  intros i t Hi. cbn [data_0 data_1]. rewrite !load_firstn by lia. reflexivity.
Qed.

Lemma get_loss_gradient_prefix (data : dataset) (n : Z) (coefs : ab) :
  get_loss_gradient data n coefs =
  get_loss_gradient (mk_dataset (firstn (Z.to_nat n) (data_0 data))
                                (firstn (Z.to_nat n) (data_1 data))) n coefs.
Proof.
  unfold get_loss_gradient. f_equal. apply for_loop_ext_range.
  intros i [a_grad b_grad] Hi. cbn [data_0 data_1].
  rewrite !load_firstn by lia. reflexivity.
Qed.

(** X2.  Cells beyond the first [n] are never read: on buffers of at least
    [n >= 1] cells, [get_loss] and [get_loss_gradient] return the mean squared
    error and the gradient of the first [n] observations, whatever follows
    them. *)
Theorem cells_beyond_n_ignored (data : dataset) (n : Z) (coefs : ab) :
  (1 <= n)%Z ->
  (n <= Z.of_nat (length (data_0 data)))%Z ->
  (n <= Z.of_nat (length (data_1 data)))%Z ->
  get_loss data n coefs =
    Ok (mean_squared_error
          (mk_dataset (firstn (Z.to_nat n) (data_0 data))
                      (firstn (Z.to_nat n) (data_1 data))) n coefs) /\
  get_loss_gradient data n coefs =
    Ok (gradient_formula
          (mk_dataset (firstn (Z.to_nat n) (data_0 data))
                      (firstn (Z.to_nat n) (data_1 data))) n coefs).
Proof.
  intros Hn Hx Hy.
  pose proof (prefix_dataset_of_size data n ltac:(lia) Hx Hy) as Hsize.
  split.
  - rewrite get_loss_prefix. apply get_loss_closed_form; [exact Hsize | lia].
  - rewrite get_loss_gradient_prefix.
    apply get_loss_gradient_closed_form; [exact Hsize | lia].
Qed.

Lemma cells_beyond_n_ignored_witness :
  (1 <= 2)%Z /\
  get_loss (mk_dataset [1; 2; 7] [3; 5; 9; 11]) 2 (mk_ab 1 0) =
    Ok (mean_squared_error (mk_dataset [1; 2] [3; 5]) 2 (mk_ab 1 0)).
Proof.
  split; [lia |].
  exact (proj1 (cells_beyond_n_ignored (mk_dataset [1; 2; 7] [3; 5; 9; 11]) 2
                  (mk_ab 1 0) ltac:(lia) ltac:(simpl; lia) ltac:(simpl; lia))).
Defined.

(** X3.  A negative size: the loops do not run, so whatever the buffers hold
    [get_loss] returns [0], [get_loss_gradient] returns [{0, 0}] and [do_step]
    returns the coefficients it was given. *)
Theorem negative_size_reads_nothing (data : dataset) (n : Z) (coefs : ab)
    (lr : double) :
  (n < 0)%Z ->
  get_loss data n coefs = Ok 0 /\
  get_loss_gradient data n coefs = Ok (mk_ab 0 0) /\
  do_step data n coefs lr = Ok coefs.
Proof.
  intros Hn.
  assert (Hn0 : of_int n <> 0) by (apply of_int_nonzero; lia).
  assert (Hgrad : get_loss_gradient data n coefs = Ok (mk_ab 0 0)).
  { unfold get_loss_gradient. rewrite for_loop_done by lia. cbn [bind].
    rewrite !ddiv_ok by exact Hn0. cbn [bind].
    do 2 f_equal; unfold Rdiv; ring. }
  split; [| split; [exact Hgrad |]].
  - unfold get_loss. rewrite for_loop_done by lia. cbn [bind].
    rewrite ddiv_ok by exact Hn0. f_equal. unfold Rdiv. ring.
  - unfold do_step. rewrite Hgrad. cbn [bind a b].
    destruct coefs as [ca cb]. cbn [a b]. do 2 f_equal; ring.
Qed.

Lemma negative_size_reads_nothing_witness :
  (-1 < 0)%Z /\
  get_loss (mk_dataset [1; 2] [3; 5]) (-1) (mk_ab 1 0) = Ok 0 /\
  do_step (mk_dataset [] []) (-1) (mk_ab 1 0) (1 / 10) = Ok (mk_ab 1 0).
Proof.
  split; [lia |]. split.
  - exact (proj1 (negative_size_reads_nothing (mk_dataset [1; 2] [3; 5]) (-1)
                    (mk_ab 1 0) 0 ltac:(lia))).
  - exact (proj2 (proj2 (negative_size_reads_nothing (mk_dataset [] []) (-1)
                           (mk_ab 1 0) (1 / 10) ltac:(lia)))).
Defined.

(** ** Failure and composition of the optimizer loop *)

(** A loop that ends leaves its counter at the bound. *)
Lemma for_loop_counter {St : Type} (lo n : Z) (body : Z -> St -> result St)
    (s s' : St) (i : Z) :
  (lo <= n)%Z -> for_loop lo n body s = Ok (i, s') -> i = n.
Proof.
  remember (Z.to_nat (n - lo)) as k eqn:Hk.
  revert lo s Hk.
  induction k as [| k IH]; intros lo s Hk Hle Hrun.
  - rewrite for_loop_done in Hrun by lia. injection Hrun as Hi _. lia.
  - rewrite for_loop_step in Hrun by lia.
    destruct (body lo s) as [t | e]; [| discriminate].
    apply (IH (lo + 1)%Z t); [lia | lia | exact Hrun].
Qed.

(** Whether [do_step] fails, and how, depends on the size and on the buffers
    only, not on the coefficients or the learning rate. *)
Lemma do_step_error (data : dataset) (n : Z) (coefs : ab) (lr : double)
    (e : error) :
  do_step data n coefs lr = Err e <->
  (e = DivisionByZero /\ n = 0%Z) \/
  (e = OutOfBounds /\ (0 < n)%Z /\
   (Z.of_nat (length (data_0 data)) < n \/
    Z.of_nat (length (data_1 data)) < n)%Z).
Proof.
  assert (Hstep : do_step data n coefs lr = Err e <->
                  get_loss_gradient data n coefs = Err e).
  { unfold do_step.
    destruct (get_loss_gradient data n coefs) as [grad | e']; cbn [bind].
    - split; discriminate.
    - reflexivity. }
  rewrite Hstep. destruct e.
  - rewrite get_loss_gradient_out_of_bounds. split.
    + intros H. right. split; [reflexivity | exact H].
    + intros [[Habs _] | [_ H]]; [discriminate | exact H].
  - rewrite get_loss_gradient_division_by_zero. split.
    + intros H. left. split; [reflexivity | exact H].
    + intros [[_ H] | [Habs _]]; [exact H | discriminate].
Qed.

(** X4.  The loop fails exactly when it has at least one step to make and
    [do_step] fails: with [DivisionByZero] when [n = 0], with [OutOfBounds]
    when [n > 0] and a buffer has fewer than [n] cells.  The initial
    coefficients and the learning rate play no part. *)
Theorem main_loop_error (data : dataset) (n : Z) (coefs : ab) (lr : double)
    (k : Z) (e : error) :
  main_loop data n coefs lr k = Err e <->
  (0 < k)%Z /\
  ((e = DivisionByZero /\ n = 0%Z) \/
   (e = OutOfBounds /\ (0 < n)%Z /\
    (Z.of_nat (length (data_0 data)) < n \/
     Z.of_nat (length (data_1 data)) < n)%Z)).
Proof.
  unfold main_loop. split.
  - intros Hrun.
    destruct (for_loop_error _ _ _ _ _ Hrun) as [i [c [Hi Hstep]]].
    split; [lia |]. apply (do_step_error data n c lr e). exact Hstep.
  - intros [Hk Hfail].
    apply (do_step_error data n coefs lr e) in Hfail.
    rewrite for_loop_step by lia. rewrite Hfail. reflexivity.
Qed.

Lemma main_loop_error_witness :
  main_loop (mk_dataset [] []) 0 (mk_ab 1 0) (1 / 10) 5 = Err DivisionByZero /\
  main_loop (mk_dataset [1] [3]) 2 (mk_ab 1 0) (1 / 10) 5 = Err OutOfBounds.
Proof.
  split.
  - apply (proj2 (main_loop_error (mk_dataset [] []) 0 (mk_ab 1 0) (1 / 10) 5
                    DivisionByZero)).
    split; [lia |]. left. split; reflexivity.
  - apply (proj2 (main_loop_error (mk_dataset [1] [3]) 2 (mk_ab 1 0) (1 / 10) 5
                    OutOfBounds)).
    split; [lia |]. right. split; [reflexivity |]. simpl. lia.
Defined.

(** X5.  Steps add up: running [k1 + k2] steps is running [k1] steps and then
    [k2] steps from the coefficients reached, failures included. *)
Theorem main_loop_add (data : dataset) (n : Z) (coefs : ab) (lr : double)
    (k1 k2 : Z) :
  (0 <= k1)%Z -> (0 <= k2)%Z ->
  main_loop data n coefs lr (k1 + k2) =
  ('(_, c1) <- main_loop data n coefs lr k1 ;;
   '(_, c2) <- main_loop data n c1 lr k2 ;;
   Ok ((k1 + k2)%Z, c2)).
Proof.
  intros Hk1 Hk2. unfold main_loop.
  rewrite (for_loop_split 0 k1 (k1 + k2)) by lia.
  destruct (for_loop 0 k1 _ coefs) as [[i c1] | e]; cbn [bind];
    [| reflexivity].
  pose proof (for_loop_shift 0 k2 k1 (fun c => do_step data n c lr) c1)
    as Hshift.
  replace (0 + k1)%Z with k1 in Hshift by lia.
  replace (k2 + k1)%Z with (k1 + k2)%Z in Hshift by lia.
  rewrite Hshift.
  destruct (for_loop 0 k2 _ c1) as [[j c2] | e] eqn:Hrun; cbn [bind];
    [| reflexivity].
  apply for_loop_counter in Hrun; [| exact Hk2]. subst j.
  do 2 f_equal. lia.
Qed.

Lemma main_loop_add_witness :
  (0 <= 2)%Z /\ (0 <= 3)%Z /\
  main_loop (mk_dataset [1; 2] [3; 5]) 2 (mk_ab 1 0) (1 / 10) (2 + 3) =
  ('(_, c1) <- main_loop (mk_dataset [1; 2] [3; 5]) 2 (mk_ab 1 0) (1 / 10) 2 ;;
   '(_, c2) <- main_loop (mk_dataset [1; 2] [3; 5]) 2 c1 (1 / 10) 3 ;;
   Ok ((2 + 3)%Z, c2)).
Proof.
  assert (H2 : (0 <= 2)%Z) by lia.
  assert (H3 : (0 <= 3)%Z) by lia.
  split; [exact H2 | split; [exact H3 |]].
  exact (main_loop_add (mk_dataset [1; 2] [3; 5]) 2 (mk_ab 1 0) (1 / 10) 2 3
           H2 H3).
Defined.

(** ** Points of zero gradient *)

(** X8.  Coefficients at which [get_loss_gradient] returns [{0, 0}] are a
    fixed point: [do_step] returns them unchanged and so does the loop after
    any number of steps, whatever the learning rate. *)
Theorem zero_gradient_is_fixed_point (data : dataset) (n : Z) (coefs : ab)
    (lr : double) (k : Z) :
  get_loss_gradient data n coefs = Ok (mk_ab 0 0) -> (0 <= k)%Z ->
  do_step data n coefs lr = Ok coefs /\
  main_loop data n coefs lr k = Ok (k, coefs).
Proof.
  intros Hgrad Hk.
  assert (Hstep : do_step data n coefs lr = Ok coefs).
  { unfold do_step. rewrite Hgrad. cbn [bind a b].
    destruct coefs as [ca cb]. cbn [a b].
    replace (ca - lr * 0) with ca by (unfold double in *; lra).
    replace (cb - lr * 0) with cb by (unfold double in *; lra).
    reflexivity. }
  split; [exact Hstep |].
  unfold main_loop.
  destruct (for_loop_invariant (fun _ c => c = coefs) 0 k
              (fun _ c => do_step data n c lr) coefs) as [c' [Hrun Hinv]].
  - exact Hk.
  - reflexivity.
  - intros i c _ ->. exists coefs. split; [exact Hstep | reflexivity].
  - rewrite Hrun, Hinv. reflexivity.
Qed.

Lemma zero_gradient_is_fixed_point_witness :
  (0 <= 4)%Z /\
  do_step (mk_dataset [1; 2] [3; 5]) 2 (mk_ab 2 1) (1 / 10) = Ok (mk_ab 2 1) /\
  main_loop (mk_dataset [1; 2] [3; 5]) 2 (mk_ab 2 1) (1 / 10) 4
  = Ok (4%Z, mk_ab 2 1).
Proof.
  assert (Hk : (0 <= 4)%Z) by lia.
  split; [exact Hk |].
  apply (zero_gradient_is_fixed_point (mk_dataset [1; 2] [3; 5]) 2 (mk_ab 2 1)
           (1 / 10) 4); [| exact Hk].
  rewrite get_loss_gradient_closed_form; [| split; reflexivity | lia].
  unfold gradient_formula, observations, residual. simpl.
  do 2 f_equal; field.
Defined.

(** ** More on the data generator *)

(** A draw lies between [0] and the bound, whatever the sign of the bound. *)
Lemma random_draw_between (RAND_MAX : Z) (w : world) (k : nat) (upper_bound : Z) :
  (0 < RAND_MAX)%Z -> rand_in_range RAND_MAX w ->
  Rmin 0 (IZR upper_bound) <= random_draw RAND_MAX w k upper_bound
  <= Rmax 0 (IZR upper_bound).
Proof.
  intros Hmax Hrange. unfold random_draw.
  destruct (Hrange (rand_pos w + k)%nat) as [Hlo Hhi].
  apply IZR_le in Hlo, Hhi. apply IZR_lt in Hmax.
  set (r := IZR (rand_gen w (rand_pos w + k))) in *.
  assert (Hq : 0 <= r / IZR RAND_MAX <= 1).
  { split.
    - apply Rmult_le_pos; [exact Hlo |].
      apply Rlt_le, Rinv_0_lt_compat. exact Hmax.
    - apply (Rmult_le_reg_r (IZR RAND_MAX)); [exact Hmax |].
      unfold Rdiv. rewrite Rmult_assoc, Rinv_l by lra. lra. }
  set (q := r / IZR RAND_MAX) in *. clearbody q.
  unfold Rmin, Rmax. destruct (Rle_dec 0 (IZR upper_bound)) as [Hub | Hub].
  - split; nra.
  - split; nra.
Qed.

(** X10.  [get_random_number] reads exactly one value of [rand()] and touches
    nothing else; its result is that value divided by [RAND_MAX] and scaled by
    the bound, so it lies between [0] and the bound, both included, also for a
    zero bound (the result is [0]) or a negative one. *)
Theorem get_random_number_one_draw (RAND_MAX : Z) (upper_bound : Z) (w : world) :
  (32767 <= RAND_MAX)%Z -> rand_in_range RAND_MAX w ->
  exists v : double,
    get_random_number RAND_MAX upper_bound w =
      Ok (v, mk_world (rand_gen w) (S (rand_pos w)) (clock_gen w) (clock_pos w)
                      (stdout w) (host_status w)) /\
    v = IZR (rand_gen w (rand_pos w)) / IZR RAND_MAX * IZR upper_bound /\
    Rmin 0 (IZR upper_bound) <= v <= Rmax 0 (IZR upper_bound).
Proof.
  intros Hmax Hrange.
  pose proof (get_random_number_draw RAND_MAX upper_bound w 0 ltac:(lia)) as Hrun.
  rewrite after_draws_zero in Hrun.
  pose proof (random_draw_between RAND_MAX w 0 upper_bound ltac:(lia) Hrange)
    as Hbetween.
  unfold random_draw, after_draws in *. rewrite Nat.add_0_r in *.
  rewrite Nat.add_1_r in Hrun.
  eexists. split; [exact Hrun |]. split; [reflexivity | exact Hbetween].
Qed.

Lemma get_random_number_one_draw_witness :
  (32767 <= 32767)%Z /\ rand_in_range 32767 (constant_world 100 0) /\
  exists v : double,
    fst_ok (get_random_number 32767 (-5) (constant_world 100 0)) = Some v /\
    Rmin 0 (IZR (-5)) <= v <= Rmax 0 (IZR (-5)).
Proof.
  assert (Hmax : (32767 <= 32767)%Z) by lia.
  assert (Hrange : rand_in_range 32767 (constant_world 100 0))
    by (intros k; simpl; lia).
  split; [exact Hmax | split; [exact Hrange |]].
  destruct (get_random_number_one_draw 32767 (-5) (constant_world 100 0)
              Hmax Hrange) as [v [Hrun [_ Hbetween]]].
  exists v. rewrite Hrun. split; [reflexivity | exact Hbetween].
Defined.

(** X11.  [get_random_data] with [n >= 0] returns two buffers of [n] cells
    and reads exactly [2 * n] values of [rand()], in order: observation [j]
    takes value [2 * j] for [x] and value [2 * j + 1] for the noise.  The
    clock, the output and the rest of the world are left as they were; this
    holds for bounds of any sign. *)
Theorem get_random_data_reads_2n (RAND_MAX : Z) (n : Z) (true_coefs : ab)
    (x_ub noise_ub : Z) (w : world) :
  (32767 <= RAND_MAX)%Z -> (0 <= n)%Z ->
  exists data : dataset,
    get_random_data RAND_MAX n true_coefs x_ub noise_ub w =
      Ok (data,
          mk_world (rand_gen w) (rand_pos w + 2 * Z.to_nat n) (clock_gen w)
                   (clock_pos w) (stdout w) (host_status w)) /\
    dataset_of_size data n /\
    forall j : nat, (j < Z.to_nat n)%nat ->
      nth j (data_0 data) 0 =
        IZR (rand_gen w (rand_pos w + 2 * j)) / IZR RAND_MAX * IZR x_ub /\
      nth j (data_1 data) 0 =
        (a true_coefs * nth j (data_0 data) 0 + b true_coefs)
        + IZR (rand_gen w (rand_pos w + (2 * j + 1))) / IZR RAND_MAX
          * IZR noise_ub.
Proof.
  intros Hmax Hn.
  destruct (get_random_data_draws RAND_MAX n true_coefs x_ub noise_ub w)
    as [data [Hrun [Hsize Hdraws]]]; [lia | exact Hn |].
  exists data. split; [exact Hrun | split; [exact Hsize |]].
  intros j Hj. destruct (Hdraws j Hj) as [Hx Hy].
  split; [exact Hx |]. rewrite Hy, Hx. reflexivity.
Qed.

Lemma get_random_data_reads_2n_witness :
  (32767 <= 32767)%Z /\ (0 <= 3)%Z /\
  exists data : dataset,
    fst_ok (get_random_data 32767 3 (mk_ab 4 2) 20 1 (constant_world 100 0))
      = Some data /\
    dataset_of_size data 3.
Proof.
  assert (Hmax : (32767 <= 32767)%Z) by lia.
  assert (Hn : (0 <= 3)%Z) by lia.
  split; [exact Hmax | split; [exact Hn |]].
  destruct (get_random_data_reads_2n 32767 3 (mk_ab 4 2) 20 1
              (constant_world 100 0) Hmax Hn) as [data [Hrun [Hsize _]]].
  exists data. rewrite Hrun. split; [reflexivity | exact Hsize].
Defined.

(** ** More on the whole program *)

(** X14.  What a run of [main] does to its environment: it reads
    [2 * DATA_SIZE] values of [rand()] and the clock twice, and prints five
    lines in this order: the announcement, the dataset size, the step count
    [STEPS] with the loss of the final coefficients, the final coefficients,
    and the difference of the two clock readings divided by
    [CLOCKS_PER_SEC]. *)
Theorem main_report (RAND_MAX CLOCKS_PER_SEC : Z) (w : world) :
  (32767 <= RAND_MAX)%Z -> (0 < CLOCKS_PER_SEC)%Z ->
  exists (data : dataset) (coefs : ab) (loss : double) (w' : world),
    main RAND_MAX CLOCKS_PER_SEC w = Ok (tt, w') /\
    fst_ok (get_random_data RAND_MAX DATA_SIZE
              (mk_ab (of_int TRUE_A) (of_int TRUE_B)) X_UB NOISE_UB w)
      = Some data /\
    main_loop data DATA_SIZE (mk_ab 1 0) LEARNING_RATE STEPS = Ok (STEPS, coefs) /\
    get_loss data DATA_SIZE coefs = Ok loss /\
    stdout w' =
      OutElapsed (IZR (clock_gen w (S (clock_pos w)) - clock_gen w (clock_pos w))
                  / IZR CLOCKS_PER_SEC)
      :: OutEstimated (a coefs) (b coefs)
      :: OutFinished STEPS loss
      :: OutDatasetSize DATA_SIZE
      :: OutComputing
      :: stdout w /\
    rand_pos w' = (rand_pos w + 2 * Z.to_nat DATA_SIZE)%nat /\
    clock_pos w' = S (S (clock_pos w)) /\
    rand_gen w' = rand_gen w /\ clock_gen w' = clock_gen w /\
    host_status w' = host_status w.
Proof.
  intros Hmax Hclock.
  destruct (main_run RAND_MAX CLOCKS_PER_SEC w)
    as [data [coefs [Hgen [Hsize [Hloop [_ Hmain]]]]]]; [lia | lia |].
  exists data, coefs, (mean_squared_error data DATA_SIZE coefs).
  eexists. split; [exact Hmain |]. cbn [stdout rand_pos clock_pos rand_gen
                                         clock_gen host_status].
  split; [rewrite Hgen; reflexivity |].
  split; [exact Hloop |].
  split; [apply get_loss_closed_form; [exact Hsize | unfold DATA_SIZE; lia] |].
  repeat split; reflexivity.
Qed.

Lemma main_report_witness :
  (32767 <= 32767)%Z /\ (0 < 1000000)%Z /\
  exists w' : world,
    main 32767 1000000 (constant_world 100 0) = Ok (tt, w') /\
    clock_pos w' = 2%nat /\ length (stdout w') = 5%nat.
Proof.
  assert (Hmax : (32767 <= 32767)%Z) by lia.
  assert (Hclock : (0 < 1000000)%Z) by lia.
  split; [exact Hmax | split; [exact Hclock |]].
  destruct (main_report 32767 1000000 (constant_world 100 0) Hmax Hclock)
    as [data [coefs [loss [w' [Hmain [_ [_ [_ [Hout [_ [Hcp _]]]]]]]]]]].
  exists w'. split; [exact Hmain |]. rewrite Hcp, Hout.
  split; reflexivity.
Defined.
